(** * security_check.py: the pre-deployment checklist of the Maternal Backend

    A shallow embedding of [deployment_package/scripts/security_check.py]
    and the properties of its checklist runner and reporter.

    The script is a sequence of seven checks run by [main] on one
    [SecurityChecker] object against the current working directory, followed
    by [print_summary], whose return value is the process exit status.

    Modelling choices.
    - The working directory is a tree of regular files (with the [st_mode]
      that [os.stat] reports and the text that [Path.read_text] returns) and
      directories.  The process is taken to have access to every entry.
    - Python's [str] is a sequence of code points; texts are held here as their
      UTF-8 bytes.  Substring tests ([in]) agree on both views.
      [str.lower] is modelled on ASCII letters: the patterns the script
      lowers and searches are ASCII, and no other code point lowers to a
      string that can take part in a match of one of them.
    - The methods run in a state monad with exceptions: Python exceptions are
      not caught anywhere in the script, so a raised exception ends the run
      with the traceback exit status 1, the mutations done so far kept. *)

From Stdlib Require Import NArith ZArith Ascii String DecimalString Lia.
From stdpp Require Import gmap strings list fin_maps.

Set Warnings "-register-all".

(** ** Python strings *)

Module Str.

(** [needle in hay] *)
Fixpoint contains (needle hay : string) : bool :=
  if String.prefix needle hay then true
  else match hay with
       | EmptyString => false
       | String _ hay' => contains needle hay'
       end.

Definition lower_ascii (c : ascii) : ascii :=
  let n := N_of_ascii c in
  if ((65 <=? n) && (n <=? 90))%N then ascii_of_N (n + 32) else c.

(** [s.lower()] *)
Fixpoint lower (s : string) : string :=
  match s with
  | EmptyString => EmptyString
  | String c s' => String (lower_ascii c) (lower s')
  end.

(** [sep.join(l)] *)
Definition join (sep : string) (l : list string) : string := String.concat sep l.

(** [s[-3:]] *)
Definition last3 (s : string) : string :=
  String.substring (String.length s - 3) 3 s.

Definition octal_digit (d : N) : ascii := ascii_of_N (48 + d).

Fixpoint octal_digits (fuel : nat) (n : N) (acc : string) : string :=
  match fuel with
  | O => acc
  | S fuel' =>
      let acc' := String (octal_digit (n mod 8)) acc in
      if (n <? 8)%N then acc' else octal_digits fuel' (n / 8) acc'
  end.

(** [oct(n)] for a non-negative [n] *)
Definition oct (n : N) : string :=
  ("0o" +:+ octal_digits (S (N.to_nat (N.log2 n))) n "")%string.

(** [str(n)] for a non-negative [n] *)
Definition of_nat (n : nat) : string := NilEmpty.string_of_uint (Nat.to_uint n).

(** [s * n] *)
Fixpoint repeat (s : string) (n : nat) : string :=
  match n with
  | O => EmptyString
  | S n' => (s +:+ repeat s n')%string
  end.

End Str.

(** ** The working directory *)

Inductive node : Type :=
  | File (st_mode : N) (text : string)
  | Dir (st_mode : N) (entries : gmap string node).

(** A [pathlib.Path] relative to the working directory, as its components.
    Every name the script passes to [Path] is a single component. *)
Definition path : Type := list string.

Definition Path (name : string) : path := [name].

(** [p / name] *)
Definition path_div (p : path) (name : string) : path := p ++ [name].

Fixpoint resolve (entries : gmap string node) (p : path) : option node :=
  match p with
  | [] => None
  | [name] => entries !! name
  | name :: rest =>
      match entries !! name with
      | Some (Dir _ sub) => resolve sub rest
      | _ => None
      end
  end.

Inductive exn : Type :=
  | FileNotFoundError
  | IsADirectoryError
  | NotADirectoryError
  | FileExistsError
  | IndexError.

Definition S_IFDIR : N := 16384.

(** The mode of a directory made by [mkdir] with its default [mode=0o777]. *)
Definition new_dir_mode (umask : N) : N := N.lor S_IFDIR (N.ldiff 511 umask).

(** [Path.mkdir(parents=True, exist_ok=True)] below [entries] *)
Fixpoint mkdir_in (umask : N) (p : path) (entries : gmap string node)
  : exn + gmap string node :=
  match p with
  | [] => inr entries
  | name :: rest =>
      match entries !! name with
      | None =>
          match mkdir_in umask rest ∅ with
          | inr sub => inr (<[name := Dir (new_dir_mode umask) sub]> entries)
          | inl e => inl e
          end
      | Some (Dir m sub) =>
          match mkdir_in umask rest sub with
          | inr sub' => inr (<[name := Dir m sub']> entries)
          | inl e => inl e
          end
      | Some (File _ _) =>
          inl (match rest with [] => FileExistsError | _ => NotADirectoryError end)
      end
  end.

(** ** The checker object and the world it runs in *)

Record SecurityChecker : Type := mkSecurityChecker {
  issues : list string;
  warnings : list string;
  checks_passed : nat;
  checks_failed : nat
}.

(** [SecurityChecker.__init__] *)
Definition init : SecurityChecker :=
  {| issues := []; warnings := []; checks_passed := 0; checks_failed := 0 |}.

Record World : Type := mkWorld {
  cwd : gmap string node;
  umask : N;
  stdout : list string;
  self : SecurityChecker
}.

Definition set_self (w : World) (c : SecurityChecker) : World :=
  {| cwd := cwd w; umask := umask w; stdout := stdout w; self := c |}.

Definition set_cwd (w : World) (d : gmap string node) : World :=
  {| cwd := d; umask := umask w; stdout := stdout w; self := self w |}.

(** ** The monad of the methods: state and exceptions *)

Inductive outcome (A : Type) : Type :=
  | Returned (a : A)
  | Raised (e : exn).
Arguments Returned {A} a.
Arguments Raised {A} e.

Definition Py (A : Type) : Type := World -> outcome A * World.

Definition ret {A} (a : A) : Py A := fun w => (Returned a, w).

Definition raise {A} (e : exn) : Py A := fun w => (Raised e, w).

Definition bind {A B} (m : Py A) (k : A -> Py B) : Py B :=
  fun w => match m w with
           | (Returned a, w') => k a w'
           | (Raised e, w') => (Raised e, w')
           end.

Declare Scope py_scope.
Delimit Scope py_scope with py.
Bind Scope py_scope with Py.

Notation "x <- m ;; k" := (bind m (fun x => k))
  (at level 100, m at next level, right associativity) : py_scope.
Notation "m ;; k" := (bind m (fun _ => k))
  (at level 100, right associativity) : py_scope.

Local Open Scope py_scope.

(** [for x in l: body(x)] *)
Fixpoint for_each {A} (l : list A) (body : A -> Py unit) : Py unit :=
  match l with
  | [] => ret tt
  | x :: l' => body x ;; for_each l' body
  end.

(** [if c: body] with no [else] *)
Definition when (c : bool) (body : Py unit) : Py unit :=
  if c then body else ret tt.

(** *** Statements on [self] *)

(** [self.issues.append(s)] *)
Definition issues_append (s : string) : Py unit := fun w =>
  (Returned tt,
   set_self w {| issues := issues (self w) ++ [s];
                 warnings := warnings (self w);
                 checks_passed := checks_passed (self w);
                 checks_failed := checks_failed (self w) |}).

(** [self.warnings.append(s)] *)
Definition warnings_append (s : string) : Py unit := fun w =>
  (Returned tt,
   set_self w {| issues := issues (self w);
                 warnings := warnings (self w) ++ [s];
                 checks_passed := checks_passed (self w);
                 checks_failed := checks_failed (self w) |}).

(** [self.checks_passed += 1] *)
Definition checks_passed_incr : Py unit := fun w =>
  (Returned tt,
   set_self w {| issues := issues (self w);
                 warnings := warnings (self w);
                 checks_passed := checks_passed (self w) + 1;
                 checks_failed := checks_failed (self w) |}).

(** [self.checks_failed += 1] *)
Definition checks_failed_incr : Py unit := fun w =>
  (Returned tt,
   set_self w {| issues := issues (self w);
                 warnings := warnings (self w);
                 checks_passed := checks_passed (self w);
                 checks_failed := checks_failed (self w) + 1 |}).

(** Reading the fields of [self] *)
Definition get_self : Py SecurityChecker := fun w => (Returned (self w), w).

(** *** Statements on the operating system *)

(** [print(s)] *)
Definition print (s : string) : Py unit := fun w =>
  (Returned tt,
   {| cwd := cwd w; umask := umask w; stdout := stdout w ++ [s]; self := self w |}).

Definition present (entries : gmap string node) (p : path) : bool :=
  match resolve entries p with
  | Some _ => true
  | None => false
  end.

(** [p.exists()] *)
Definition exists_ (p : path) : Py bool := fun w =>
  (Returned (present (cwd w) p), w).

(** [os.stat(name).st_mode] *)
Definition os_stat_st_mode (name : string) : Py N := fun w =>
  match resolve (cwd w) (Path name) with
  | Some (File m _) => (Returned m, w)
  | Some (Dir m _) => (Returned m, w)
  | None => (Raised FileNotFoundError, w)
  end.

(** [p.read_text()] *)
Definition read_text (p : path) : Py string := fun w =>
  match resolve (cwd w) p with
  | Some (File _ t) => (Returned t, w)
  | Some (Dir _ _) => (Raised IsADirectoryError, w)
  | None => (Raised FileNotFoundError, w)
  end.

(** [p.mkdir(parents=True, exist_ok=True)] *)
Definition mkdir (p : path) : Py unit := fun w =>
  match mkdir_in (umask w) p (cwd w) with
  | inr d => (Returned tt, set_cwd w d)
  | inl e => (Raised e, w)
  end.

(** [s[i]] *)
Definition str_index (s : string) (i : nat) : Py ascii := fun w =>
  match String.get i s with
  | Some c => (Returned c, w)
  | None => (Raised IndexError, w)
  end.

(** ** The checks *)

Definition nl : string := String "010"%char EmptyString.

Definition required_vars : list string :=
  ["SECRET_KEY"; "DB_PASSWORD"; "DB_NAME"; "DB_USER";
   "ALLOWED_HOSTS"; "DEBUG"; "DJANGO_ENV"].

Definition weak_patterns : list (string * string) :=
  [("SECRET_KEY", "django-insecure");
   ("DB_PASSWORD", "postgres");
   ("DEBUG", "True");
   ("SECRET_KEY", "change");
   ("SECRET_KEY", "your-secret")].

Definition required_files : list string :=
  ["Dockerfile.prod"; "docker-compose.prod.yml"; "entrypoint.prod.sh";
   "nginx.prod.conf"].

Definition required_dirs : list string := ["logs"; "db_backups"; "nginx_ssl"].

Definition sensitive_patterns : list string :=
  [".env"; "*.pem"; "*.key"; "db_backups"; "logs"].

Definition security_headers : list string :=
  ["X-Frame-Options"; "X-Content-Type-Options"; "X-XSS-Protection";
   "Strict-Transport-Security"].

(** The messages the checks record. *)
Definition env_not_found : string := "❌ .env file not found".
Definition env_world_readable : string :=
  "⚠️  .env file is world-readable (consider chmod 600)".
Definition env_missing_vars (missing_vars : list string) : string :=
  "❌ Missing environment variables: " +:+ Str.join ", " missing_vars.
Definition weak_value (var : string) : string :=
  "⚠️  Possible weak/default value for " +:+ var.
Definition ssl_dir_not_found : string := "⚠️  nginx_ssl directory not found".
Definition cert_not_found : string := "❌ SSL certificate (fullchain.pem) not found".
Definition key_not_found : string := "❌ SSL private key (privkey.pem) not found".
Definition file_not_found (file : string) : string :=
  "❌ Required file not found: " +:+ file.
Definition dir_not_found (dir_name : string) : string :=
  "⚠️  Directory not found: " +:+ dir_name +:+ " (will be created)".
Definition gitignore_not_found : string := "⚠️  .gitignore not found".
Definition gitignore_missing (missing : list string) : string :=
  "⚠️  Missing patterns in .gitignore: " +:+ Str.join ", " missing.
Definition build_script_not_found : string := "⚠️  build_secure.py not found".
Definition headers_missing (missing : list string) : string :=
  "⚠️  Missing security headers: " +:+ Str.join ", " missing.

(** The loops that fill [missing_vars] and [missing]: the names whose
    [needle] is not in [content]. *)
Definition missing_from (needle : string -> string) (names : list string)
    (content : string) : list string :=
  List.filter (fun name => negb (Str.contains (needle name) content)) names.
Arguments missing_from : simpl never.

Definition check_env_file : Py unit :=
  print (nl +:+ "🔍 Checking environment configuration...") ;;
  let env_file := Path ".env" in
  found <- exists_ env_file ;;
  if negb found then
    issues_append env_not_found ;;
    checks_failed_incr
  else
    st_mode <- os_stat_st_mode ".env" ;;
    let perms := Str.last3 (Str.oct st_mode) in
    other <- str_index perms 2 ;;
    when (negb (Ascii.eqb other "0")) (warnings_append env_world_readable) ;;
    env_content <- read_text env_file ;;
    let missing_vars := missing_from (fun var => var +:+ "=") required_vars env_content in
    match missing_vars with
    | _ :: _ =>
        issues_append (env_missing_vars missing_vars) ;;
        checks_failed_incr
    | [] =>
        print "  ✓ All required environment variables present" ;;
        checks_passed_incr
    end ;;
    for_each weak_patterns (fun '(var, pattern) =>
      when (Str.contains (Str.lower pattern) (Str.lower env_content))
           (warnings_append (weak_value var))).

Definition check_ssl_certificates : Py unit :=
  print (nl +:+ "🔍 Checking SSL certificates...") ;;
  let ssl_dir := Path "nginx_ssl" in
  found <- exists_ ssl_dir ;;
  if negb found then
    warnings_append ssl_dir_not_found
  else
    let cert_file := path_div ssl_dir "fullchain.pem" in
    let key_file := path_div ssl_dir "privkey.pem" in
    cert <- exists_ cert_file ;;
    (if negb cert then
       issues_append cert_not_found ;;
       checks_failed_incr
     else
       print "  ✓ SSL certificate found" ;;
       checks_passed_incr) ;;
    key <- exists_ key_file ;;
    if negb key then
      issues_append key_not_found ;;
      checks_failed_incr
    else
      print "  ✓ SSL private key found" ;;
      checks_passed_incr.

Definition check_docker_files : Py unit :=
  print (nl +:+ "🔍 Checking Docker configuration...") ;;
  for_each required_files (fun file =>
    found <- exists_ (Path file) ;;
    if negb found then
      issues_append (file_not_found file) ;;
      checks_failed_incr
    else
      print ("  ✓ " +:+ file +:+ " found") ;;
      checks_passed_incr).

Definition check_directory_structure : Py unit :=
  print (nl +:+ "🔍 Checking directory structure...") ;;
  for_each required_dirs (fun dir_name =>
    let dir_path := Path dir_name in
    found <- exists_ dir_path ;;
    if negb found then
      warnings_append (dir_not_found dir_name) ;;
      mkdir dir_path ;;
      print ("  📁 Created: " +:+ dir_name)
    else
      print ("  ✓ " +:+ dir_name +:+ " directory exists") ;;
      checks_passed_incr).

Definition check_gitignore : Py unit :=
  print (nl +:+ "🔍 Checking .gitignore configuration...") ;;
  let gitignore := Path ".gitignore" in
  found <- exists_ gitignore ;;
  if negb found then
    warnings_append gitignore_not_found
  else
    content <- read_text gitignore ;;
    let missing := missing_from (fun pattern => pattern) sensitive_patterns content in
    match missing with
    | _ :: _ => warnings_append (gitignore_missing missing)
    | [] =>
        print "  ✓ .gitignore properly configured" ;;
        checks_passed_incr
    end.

Definition check_python_compiled : Py unit :=
  print (nl +:+ "🔍 Checking code compilation setup...") ;;
  found <- exists_ (Path "build_secure.py") ;;
  if found then
    print "  ✓ Build script (build_secure.py) found" ;;
    checks_passed_incr
  else
    warnings_append build_script_not_found.

Definition check_security_headers : Py unit :=
  print (nl +:+ "🔍 Checking security headers configuration...") ;;
  let nginx_conf := Path "nginx.prod.conf" in
  found <- exists_ nginx_conf ;;
  if negb found then
    ret tt
  else
    content <- read_text nginx_conf ;;
    let missing := missing_from (fun header => header) security_headers content in
    match missing with
    | _ :: _ => warnings_append (headers_missing missing)
    | [] =>
        print "  ✓ Security headers configured" ;;
        checks_passed_incr
    end.

Definition print_summary : Py Z :=
  print (nl +:+ Str.repeat "=" 60) ;;
  print "📊 SECURITY CHECK SUMMARY" ;;
  print (Str.repeat "=" 60) ;;
  s <- get_self ;;
  print (nl +:+ "✅ Checks passed: " +:+ Str.of_nat (checks_passed s)) ;;
  print ("❌ Checks failed: " +:+ Str.of_nat (checks_failed s)) ;;
  print ("⚠️  Warnings: " +:+ Str.of_nat (length (warnings s))) ;;
  when (negb (bool_decide (issues s = [])))
    (print (nl +:+ "🚨 CRITICAL ISSUES (Must fix before deployment):") ;;
     for_each (issues s) (fun issue => print ("  " +:+ issue))) ;;
  when (negb (bool_decide (warnings s = [])))
    (print (nl +:+ "⚠️  WARNINGS (Should address):") ;;
     for_each (warnings s) (fun warning => print ("  " +:+ warning))) ;;
  if bool_decide (issues s = []) && bool_decide (warnings s = []) then
    print (nl +:+ "🎉 All security checks passed! Ready for deployment.") ;;
    print (nl +:+ "Next steps:") ;;
    print "  1. docker-compose -f docker-compose.prod.yml build" ;;
    print "  2. docker-compose -f docker-compose.prod.yml up -d" ;;
    print "  3. docker-compose -f docker-compose.prod.yml logs -f" ;;
    print (nl +:+ Str.repeat "=" 60) ;;
    ret 0%Z
  else if bool_decide (issues s = []) then
    print (nl +:+ "✅ No critical issues found. Review warnings before deployment.") ;;
    print (nl +:+ Str.repeat "=" 60) ;;
    ret 0%Z
  else
    print (nl +:+ "❌ Critical issues found. Please fix before deployment.") ;;
    ret 1%Z.

Definition banner : string :=
  nl +:+
  "╔═══════════════════════════════════════════════════════╗" +:+ nl +:+
  "║     Maternal Backend - Security Check                ║" +:+ nl +:+
  "║     Validating deployment configuration              ║" +:+ nl +:+
  "╚═══════════════════════════════════════════════════════╝" +:+ nl +:+
  "    ".

(** The seven checks of [main], in its order. *)
Definition run_all_checks : Py unit :=
  check_env_file ;;
  check_ssl_certificates ;;
  check_docker_files ;;
  check_directory_structure ;;
  check_gitignore ;;
  check_python_compiled ;;
  check_security_headers.

(** [main], from the construction of the checker on. *)
Definition main : Py Z :=
  print banner ;;
  (fun w => (Returned tt, set_self w init)) ;;
  run_all_checks ;;
  print_summary.

(** [sys.exit(main())]: the exit status of the process and the world it
    leaves.  An exception that reaches the top level ends the process with
    status 1. *)
Definition exit_status (o : outcome Z) : Z :=
  match o with
  | Returned code => code
  | Raised _ => 1%Z
  end.

(** * The vocabulary of the statements *)

(** What a method returns and the world it leaves. *)
Definition result {A} (m : Py A) (w : World) : outcome A := fst (m w).
Definition after {A} (m : Py A) (w : World) : World := snd (m w).

(** ** What a check records

    [record c new_issues new_warnings passes] is the checker [c] after
    [new_issues] and [new_warnings] were appended and [passes] checks passed,
    the failed counter moving with the issues. *)

Definition record (c : SecurityChecker) (new_issues new_warnings : list string)
    (passes : nat) : SecurityChecker :=
  {| issues := issues c ++ new_issues;
     warnings := warnings c ++ new_warnings;
     checks_passed := checks_passed c + passes;
     checks_failed := checks_failed c + length new_issues |}.

Definition ssl_dir : path := Path "nginx_ssl".
Definition cert_file : path := path_div ssl_dir "fullchain.pem".
Definition key_file : path := path_div ssl_dir "privkey.pem".

(** The issues of the two files of the certificate directory. *)
Definition ssl_issues (d : gmap string node) : list string :=
  (if present d cert_file then [] else [cert_not_found]) ++
  (if present d key_file then [] else [key_not_found]).

Definition ssl_passes (d : gmap string node) : nat :=
  (if present d cert_file then 1 else 0) + (if present d key_file then 1 else 0).

(** The names of a list that exist, and those that do not, in a directory. *)
Definition present_in (d : gmap string node) (names : list string) : list string :=
  List.filter (fun name => present d (Path name)) names.

Definition absent_in (d : gmap string node) (names : list string) : list string :=
  List.filter (fun name => negb (present d (Path name))) names.

(** The messages of a list that name [file]. *)
Definition naming (file : string) (messages : list string) : list string :=
  List.filter (Str.contains file) messages.

(** The working directory once [name] was looked for and, when missing, made. *)
Definition made (umask : N) (d : gmap string node) (name : string)
  : gmap string node :=
  if present d (Path name) then d else <[name := Dir (new_dir_mode umask) ∅]> d.

Definition is_dir (d : gmap string node) (p : path) : bool :=
  match resolve d p with
  | Some (Dir _ _) => true
  | _ => false
  end.

(** The warnings of the permission test and of the weak-value scan of the
    environment-file check. *)
Definition perms_warnings (st_mode : N) : list string :=
  if bool_decide (st_mode mod 8 = 0)%N then [] else [env_world_readable].

Definition weak_warnings (env_content : string) : list string :=
  map (fun '(var, _) => weak_value var)
      (List.filter
         (fun '(_, pattern) =>
            Str.contains (Str.lower pattern) (Str.lower env_content))
         weak_patterns).

(** What a scan for names in a text records: one message that lists the
    missing names, or one pass. *)
Definition report_missing (message : list string -> string)
    (missing : list string) : list string :=
  match missing with
  | [] => []
  | _ :: _ => [message missing]
  end.

Definition pass_if_none (missing : list string) : nat :=
  match missing with
  | [] => 1
  | _ :: _ => 0
  end.

(** [records m P]: whatever the world, and whether [m] returns or raises,
    [m] only appends to the issues and the warnings and only adds to the
    counters, the failed counter by the number of appended issues; and the
    appended issues satisfy [P]. *)
Definition records {A} (m : Py A) (P : list string -> Prop) : Prop :=
  forall w, exists new_issues new_warnings passes,
    self (after m w) = record (self w) new_issues new_warnings passes /\
    P new_issues.

(** The checks of [main], in its order. *)
Definition checks : list (Py unit) :=
  [check_env_file; check_ssl_certificates; check_docker_files;
   check_directory_structure; check_gitignore; check_python_compiled;
   check_security_headers].

(** The checks that follow the environment-file check. *)
Definition later_checks : Py unit :=
  check_ssl_certificates ;;
  check_docker_files ;;
  check_directory_structure ;;
  check_gitignore ;;
  check_python_compiled ;;
  check_security_headers.

(** The world in which [main] starts the checks: the banner printed and the
    checker new. *)
Definition start (w : World) : World := set_self (after (print banner) w) init.

(** An environment file with a strong database password whose database user
    is [postgres]. *)
Definition strong_password : string := "Xq7!vB2#nL9$wT4z".

Definition env_user_postgres_lines : list string :=
  ["SECRET_KEY=k3Vq8Zr1mT5xW0aLpY6u";
   "DB_PASSWORD=" +:+ strong_password;
   "DB_NAME=maternal";
   "DB_USER=postgres";
   "ALLOWED_HOSTS=example.org";
   "DEBUG=False";
   "DJANGO_ENV=production"].

Definition env_user_postgres : string := Str.join nl env_user_postgres_lines.

(** ** Working directories to run the script in *)

(** A run that starts in the directory [d], with the usual [umask] 022. *)
Definition in_dir (d : gmap string node) : World :=
  {| cwd := d; umask := 18; stdout := []; self := init |}.

(** A directory where [.env] is itself a directory, the name some projects
    give to their virtual environment. *)
Definition env_is_directory : gmap string node := {[ ".env" := Dir 16877 ∅ ]}.

(** A directory with no [.env] where [.gitignore] is a directory. *)
Definition gitignore_is_directory : gmap string node :=
  {[ ".gitignore" := Dir 16877 ∅ ]}.

Definition env_good : string :=
  Str.join nl
    ["SECRET_KEY=k3Vq8Zr1mT5xW0aLpY6u";
     "DB_PASSWORD=" +:+ strong_password;
     "DB_NAME=maternal";
     "DB_USER=maternal_app";
     "ALLOWED_HOSTS=example.org";
     "DEBUG=False";
     "DJANGO_ENV=production"].

Definition gitignore_good : string :=
  Str.join nl [".env"; "*.pem"; "*.key"; "db_backups/"; "logs/"].

Definition nginx_conf_good : string :=
  Str.join nl
    ["add_header X-Frame-Options DENY;";
     "add_header X-Content-Type-Options nosniff;";
     "add_header X-XSS-Protection 1;";
     "add_header Strict-Transport-Security max-age=31536000;"].

(** A directory with every file and directory the checks look for, all
    texts complete and no weak value, [.env] having the mode [env_mode]. *)
Definition deployment (env_mode : N) : gmap string node :=
  <[".env" := File env_mode env_good]>
  (<["nginx_ssl" := Dir 16877 (<["fullchain.pem" := File 33188 "cert"]>
                               (<["privkey.pem" := File 33152 "key"]> ∅))]>
  (<["Dockerfile.prod" := File 33188 "FROM python:3.11"]>
  (<["docker-compose.prod.yml" := File 33188 "services:"]>
  (<["entrypoint.prod.sh" := File 33261 "#!/bin/sh"]>
  (<["nginx.prod.conf" := File 33188 nginx_conf_good]>
  (<["logs" := Dir 16877 ∅]>
  (<["db_backups" := Dir 16877 ∅]>
  (<[".gitignore" := File 33188 gitignore_good]>
  (<["build_secure.py" := File 33188 "import py_compile"]> ∅))))))))).

(** Every path the checks test for existence exists. *)
Definition everything_present (d : gmap string node) : bool :=
  present d (Path ".env") && present d ssl_dir && present d cert_file &&
  present d key_file &&
  forallb (fun name => present d (Path name)) required_files &&
  forallb (fun name => present d (Path name)) required_dirs &&
  present d (Path ".gitignore") && present d (Path "build_secure.py").

(** A directory whose [.env] holds an insecure secret key, in capitals. *)
Definition insecure_deployment : gmap string node :=
  {[ ".env" := File 33152 "SECRET_KEY=DJANGO-INSECURE-XYZ" ]}.

(** * The vocabulary of the further statements *)

(** The issue of the environment-file check in the directory [d]. *)
Definition env_issues (d : gmap string node) : list string :=
  match resolve d (Path ".env") with
  | None => [env_not_found]
  | Some (File _ env_content) =>
      report_missing env_missing_vars
        (missing_from (fun var => var +:+ "=") required_vars env_content)
  | Some (Dir _ _) => []
  end.

(** The issues a run records in the directory [d] once it is past the
    environment-file check. *)
Definition blocking_issues (d : gmap string node) : list string :=
  env_issues d ++
  (if present d ssl_dir then ssl_issues d else []) ++
  map file_not_found (absent_in d required_files).

(** [records_at_most m i ws total]: whatever the world, [m] appends at most
    [i] issues and [ws] warnings, and counts at most [total] checks, passed
    and failed together. *)
Definition records_at_most {A} (m : Py A) (i ws total : nat) : Prop :=
  forall w, exists new_issues new_warnings passes,
    self (after m w) = record (self w) new_issues new_warnings passes /\
    length new_issues <= i /\
    length new_warnings <= ws /\
    passes + length new_issues <= total.

(** The closing lines of the summary. *)
Definition ready_message : string :=
  nl +:+ "🎉 All security checks passed! Ready for deployment.".
Definition review_message : string :=
  nl +:+ "✅ No critical issues found. Review warnings before deployment.".
Definition critical_message : string :=
  nl +:+ "❌ Critical issues found. Please fix before deployment.".

(** A line of the summary that shows a recorded message. *)
Definition shown (message : string) : string := "  " +:+ message.

(** What [print_summary] prints for the checker [c]: the counts, the
    recorded messages, the closing lines. *)
Definition summary_counts (c : SecurityChecker) : list string :=
  [nl +:+ Str.repeat "=" 60;
   "📊 SECURITY CHECK SUMMARY";
   Str.repeat "=" 60;
   nl +:+ "✅ Checks passed: " +:+ Str.of_nat (checks_passed c);
   "❌ Checks failed: " +:+ Str.of_nat (checks_failed c);
   "⚠️  Warnings: " +:+ Str.of_nat (length (warnings c))].

Definition summary_listing (c : SecurityChecker) : list string :=
  match issues c with
  | [] => []
  | _ :: _ =>
      (nl +:+ "🚨 CRITICAL ISSUES (Must fix before deployment):")
      :: map shown (issues c)
  end ++
  match warnings c with
  | [] => []
  | _ :: _ => (nl +:+ "⚠️  WARNINGS (Should address):") :: map shown (warnings c)
  end.

Definition summary_closing (c : SecurityChecker) : list string :=
  match issues c, warnings c with
  | [], [] =>
      [ready_message;
       nl +:+ "Next steps:";
       "  1. docker-compose -f docker-compose.prod.yml build";
       "  2. docker-compose -f docker-compose.prod.yml up -d";
       "  3. docker-compose -f docker-compose.prod.yml logs -f";
       nl +:+ Str.repeat "=" 60]
  | [], _ :: _ => [review_message; nl +:+ Str.repeat "=" 60]
  | _ :: _, _ => [critical_message]
  end.

Definition summary_lines (c : SecurityChecker) : list string :=
  summary_counts c ++ summary_listing c ++ summary_closing c.

(** A directory with an empty [nginx_ssl] and nothing else. *)
Definition empty_ssl_dir : gmap string node := {[ "nginx_ssl" := Dir 16877 ∅ ]}.

(** A directory where [nginx_ssl] is a regular file. *)
Definition ssl_is_file : gmap string node := {[ "nginx_ssl" := File 33188 "" ]}.

(** A directory where [logs] is a regular file. *)
Definition logs_is_file : gmap string node := {[ "logs" := File 33188 "" ]}.

(** A directory whose [.env] is open to others and full of weak values, and
    whose [nginx.prod.conf] is empty. *)
Definition careless_deployment : gmap string node :=
  <[".env" := File 33188
      (Str.join nl ["SECRET_KEY=django-insecure-change-your-secret";
                    "DB_PASSWORD=postgres"; "DEBUG=True"])]>
  (<["nginx.prod.conf" := File 33188 ""]> ∅).

(** The checks that only ever warn or pass, in the order of [main]. *)
Definition advisory_checks : Py unit :=
  check_directory_structure ;;
  check_gitignore ;;
  check_python_compiled ;;
  check_security_headers.

(** * Properties *)

(** ** Strings *)

Module StrFacts.
Import Str.

Lemma append_nil (b : string) : "" +:+ b = b.
Proof. reflexivity. Qed.

Lemma append_cons (x : ascii) (a b : string) :
  String x a +:+ b = String x (a +:+ b).
Proof. reflexivity. Qed.

Ltac app_simpl := rewrite ?append_nil, ?append_cons in *; simpl in *.

Lemma prefix_app (a b : string) : String.prefix a (a +:+ b) = true.
Proof.
  induction a as [|c a IH]; app_simpl; [by destruct b|].
  by destruct (ascii_dec c c).
Qed.

Lemma prefix_split (a h : string) :
  String.prefix a h = true -> exists s, h = a +:+ s.
Proof.
  revert h. induction a as [|c a IH]; intros h Hp.
  - by exists h.
  - destruct h as [|d h]; [done|]. simpl in Hp.
    destruct (ascii_dec c d) as [->|]; [|done].
    destruct (IH _ Hp) as [s ->]. by exists s.
Qed.

Lemma contains_unfold (needle hay : string) :
  contains needle hay =
  if String.prefix needle hay then true
  else match hay with
       | EmptyString => false
       | String _ hay' => contains needle hay'
       end.
Proof. by destruct hay. Qed.

(** [needle in hay] holds exactly when [hay] is [p + needle + s]. *)
Lemma contains_split (needle hay : string) :
  contains needle hay = true <-> exists p s, hay = p +:+ needle +:+ s.
Proof.
  split.
  - induction hay as [|c hay IH]; rewrite contains_unfold;
      destruct (String.prefix needle _) eqn:Hp; try done.
    + intros _. destruct (prefix_split _ _ Hp) as [s Hs]. by exists ""%string, s.
    + intros _. destruct (prefix_split _ _ Hp) as [s Hs]. by exists ""%string, s.
    + intros H. destruct (IH H) as (p & s & ->). by exists (String c p), s.
  - intros (p & s & ->). induction p as [|c p IH].
    + change ("" +:+ needle +:+ s) with (needle +:+ s).
      by rewrite contains_unfold, prefix_app.
    + rewrite contains_unfold. change (String c p +:+ needle +:+ s)
        with (String c (p +:+ needle +:+ s)).
      by destruct (String.prefix _ _).
Qed.

Lemma append_assoc (a b c : string) : (a +:+ b) +:+ c = a +:+ (b +:+ c).
Proof. induction a as [|x a IH]; app_simpl; [done|by rewrite IH]. Qed.

Lemma contains_trans (a b c : string) :
  contains a b = true -> contains b c = true -> contains a c = true.
Proof.
  rewrite !contains_split. intros (p & s & ->) (p' & s' & ->).
  exists (p' +:+ p), (s +:+ s'). by rewrite !append_assoc.
Qed.

Lemma lower_app (a b : string) : lower (a +:+ b) = lower a +:+ lower b.
Proof. induction a as [|x a IH]; app_simpl; [done|by rewrite IH]. Qed.

Lemma contains_lower (a b : string) :
  contains a b = true -> contains (lower a) (lower b) = true.
Proof.
  rewrite !contains_split. intros (p & s & ->).
  exists (lower p), (lower s). by rewrite !lower_app.
Qed.

Lemma octal_digits_acc (fuel : nat) (n : N) (acc : string) :
  exists s, octal_digits fuel n acc = s +:+ acc.
Proof.
  revert n acc. induction fuel as [|fuel IH]; intros n acc; simpl.
  - by exists ""%string.
  - destruct (n <? 8)%N; [by exists (String (octal_digit (n mod 8)) "")|].
    destruct (IH (n / 8)%N (String (octal_digit (n mod 8)) acc)) as [s ->].
    exists (s +:+ String (octal_digit (n mod 8)) ""). by rewrite append_assoc.
Qed.

(** The octal digits end in the digit of [n mod 8]. *)
Lemma octal_digits_last (fuel : nat) (n : N) (acc : string) :
  exists s, octal_digits (S fuel) n acc = s +:+ String (octal_digit (n mod 8)) acc.
Proof.
  simpl. destruct (n <? 8)%N; [by exists ""%string|]. apply octal_digits_acc.
Qed.

Lemma length_app (a b : string) :
  String.length (a +:+ b) = String.length a + String.length b.
Proof. induction a as [|x a IH]; app_simpl; [done|by rewrite IH]. Qed.

Lemma get_last3_snoc (s : string) (c : ascii) :
  2 <= String.length s -> String.get 2 (last3 (s +:+ String c "")) = Some c.
Proof.
  unfold last3. rewrite length_app. simpl String.length.
  replace (String.length s + 1 - 3) with (String.length s - 2) by lia.
  induction s as [|a s IH]; simpl; [lia|]. intros Hlen.
  destruct s as [|b s]; [simpl in Hlen; lia|].
  destruct s as [|d s]; [done|].
  simpl in IH. simpl. replace (String.length s - 0) with (String.length s) in IH by lia.
  apply IH. simpl. lia.
Qed.

(** [oct(st_mode)[-3:][2]] is the last octal digit of [st_mode]. *)
Lemma perms_other (n : N) :
  String.get 2 (last3 (oct n)) = Some (octal_digit (n mod 8)).
Proof.
  unfold oct. destruct (octal_digits_last (N.to_nat (N.log2 n)) n "") as [s ->].
  change ("0o" +:+ s +:+ String (octal_digit (n mod 8)) "")
    with (String "0" (String "o" (s +:+ String (octal_digit (n mod 8)) ""))).
  change (String "0" (String "o" (s +:+ String (octal_digit (n mod 8)) "")))
    with (("0o" +:+ s) +:+ String (octal_digit (n mod 8)) "").
  apply get_last3_snoc. simpl. lia.
Qed.

Lemma octal_digit_zero (n : N) :
  Ascii.eqb (octal_digit (n mod 8)) "0" = bool_decide (n mod 8 = 0)%N.
Proof.
  assert (n mod 8 < 8)%N as Hlt by (apply N.mod_lt; lia).
  destruct (n mod 8)%N as [|p] eqn:E; [done|].
  do 3 (destruct p as [p|p|]; try done); lia.
Qed.

End StrFacts.

(** ** The monad *)

Lemma bind_returned {A B} (m : Py A) (k : A -> Py B) (w : World) (a : A) :
  result m w = Returned a ->
  bind m k w = k a (after m w).
Proof. unfold result, after, bind. by destruct (m w) as [[] ?]; intros [= ->]. Qed.

Lemma bind_raised {A B} (m : Py A) (k : A -> Py B) (w : World) (e : exn) :
  result m w = Raised e ->
  bind m k w = (Raised e, after m w).
Proof. unfold result, after, bind. by destruct (m w) as [[] ?]; intros [= ->]. Qed.

Lemma bind_assoc {A B C} (m : Py A) (k : A -> Py B) (k' : B -> Py C) (w : World) :
  bind (bind m k) k' w = bind m (fun a => bind (k a) k') w.
Proof. unfold bind. by destruct (m w) as [[] ?]. Qed.

(** Unfolding the statements of a method body on a world. *)
Ltac py_unfold :=
  unfold result, after, bind, ret, raise, when, print, exists_, read_text,
    os_stat_st_mode, mkdir, str_index, get_self, issues_append,
    warnings_append, checks_passed_incr, checks_failed_incr, set_self,
    set_cwd in *.

Ltac py_run := simpl; py_unfold; simpl.

Lemma for_each_print {A} (f : A -> string) (l : list A) (w : World) :
  for_each l (fun x => print (f x)) w =
  (Returned tt,
   {| cwd := cwd w; umask := umask w; stdout := stdout w ++ map f l;
      self := self w |}).
Proof.
  revert w. induction l as [|x l IH]; intros w; simpl.
  - unfold ret. rewrite app_nil_r. by destruct w.
  - unfold bind at 1, print at 1. rewrite IH. simpl. by rewrite <- app_assoc.
Qed.

Lemma record_nothing (c : SecurityChecker) : record c [] [] 0 = c.
Proof.
  destruct c. unfold record. simpl. rewrite !app_nil_r. f_equal; lia.
Qed.

Lemma record_record (c : SecurityChecker) (i1 w1 i2 w2 : list string) (p1 p2 : nat) :
  record (record c i1 w1 p1) i2 w2 p2 = record c (i1 ++ i2) (w1 ++ w2) (p1 + p2).
Proof.
  unfold record. simpl. rewrite !app_assoc, length_app. f_equal; lia.
Qed.

Ltac record_eq :=
  rewrite ?record_nothing; try done;
  unfold record; simpl;
  rewrite <- ?app_assoc, ?app_nil_r, ?map_app, ?length_app; simpl;
  f_equal; try done; lia.

Ltac case_present :=
  match goal with
  | |- context [present ?d ?p] => destruct (present d p) eqn:?; simpl
  end.

(** A loop keeps an invariant of the elements gone through so far. *)
Lemma for_each_invariant {A} (I : list A -> World -> Prop) (body : A -> Py unit)
    (l : list A) :
  (forall done x rest w,
      l = done ++ x :: rest -> I done w ->
      result (body x) w = Returned tt /\ I (done ++ [x]) (after (body x) w)) ->
  forall w, I [] w ->
  result (for_each l body) w = Returned tt /\ I l (after (for_each l body) w).
Proof.
  intros Hbody.
  assert (forall rest done w, l = done ++ rest -> I done w ->
            result (for_each rest body) w = Returned tt /\
            I l (after (for_each rest body) w)) as Hgen.
  { induction rest as [|x rest IH]; intros done w Hl HI; simpl.
    - rewrite app_nil_r in Hl. by subst.
    - destruct (Hbody done x rest w Hl HI) as [Hr HI'].
      unfold result, after in *. rewrite (bind_returned _ _ _ tt Hr).
      apply (IH (done ++ [x])); [by rewrite <- app_assoc|done]. }
  intros w HI. by apply (Hgen l []).
Qed.

(** ** The TLS material check *)

Lemma check_ssl_certificates_spec (w : World) :
  result check_ssl_certificates w = Returned tt /\
  cwd (after check_ssl_certificates w) = cwd w /\
  umask (after check_ssl_certificates w) = umask w /\
  self (after check_ssl_certificates w) =
    if present (cwd w) ssl_dir
    then record (self w) (ssl_issues (cwd w)) [] (ssl_passes (cwd w))
    else record (self w) [] [ssl_dir_not_found] 0.
Proof.
  unfold check_ssl_certificates, ssl_issues, ssl_passes, cert_file, key_file,
    ssl_dir.
  py_run. repeat case_present; repeat split; try done; record_eq.
Qed.


(** ** The required-files check *)

Lemma check_docker_files_spec (w : World) :
  result check_docker_files w = Returned tt /\
  cwd (after check_docker_files w) = cwd w /\
  umask (after check_docker_files w) = umask w /\
  self (after check_docker_files w) =
    record (self w) (map file_not_found (absent_in (cwd w) required_files)) []
      (length (present_in (cwd w) required_files)).
Proof.
  unfold check_docker_files, absent_in, present_in, required_files, Path.
  py_run. repeat case_present; repeat split; try done; record_eq.
Qed.

(** C6.  The required-files check always returns, leaves the working
    directory and the warnings as they were, and appends one issue
    [file_not_found file] per file of [required_files] that does not exist, in
    the order of the list: the failed counter grows by the number of missing
    files and the passed counter by the number of present ones.  Of the
    appended issues, exactly one names a missing file and none names a
    present one. *)
Theorem check_docker_files_outcome (w : World) :
  let w' := after check_docker_files w in
  let missing := absent_in (cwd w) required_files in
  let found := present_in (cwd w) required_files in
  let new_issues := map file_not_found missing in
  result check_docker_files w = Returned tt /\
  cwd w' = cwd w /\
  warnings (self w') = warnings (self w) /\
  issues (self w') = issues (self w) ++ new_issues /\
  checks_failed (self w') = checks_failed (self w) + length missing /\
  checks_passed (self w') = checks_passed (self w) + length found /\
  length missing + length found = length required_files /\
  Forall (fun file =>
            length (naming file new_issues) =
            if present (cwd w) (Path file) then 0 else 1)
         required_files.
Proof.
  destruct (check_docker_files_spec w) as (Hr & Hc & _ & Hs).
  simpl. rewrite Hs. unfold record. simpl. rewrite app_nil_r, length_map.
  repeat split; try done.
  - unfold absent_in, present_in, required_files, Path. simpl.
    repeat case_present; done.
  - unfold absent_in, required_files. repeat constructor; cbn [List.filter];
      repeat case_present; reflexivity.
Qed.

(** ** The required-directories check *)

Lemma present_lookup (d : gmap string node) (name : string) :
  present d (Path name) = bool_decide (is_Some (d !! name)).
Proof. unfold present. simpl. by destruct (d !! name). Qed.

Lemma present_made_eq (u : N) (d : gmap string node) (name : string) :
  present (made u d name) (Path name) = true.
Proof.
  unfold made. destruct (present d (Path name)) eqn:E; [done|].
  by rewrite present_lookup, lookup_insert_eq.
Qed.

Lemma resolve_made_ne (u : N) (d : gmap string node) (name other : string) :
  name <> other -> resolve (made u d name) (Path other) = resolve d (Path other).
Proof.
  intros Hne. unfold made. destruct (present d (Path name)); [done|].
  simpl. by rewrite lookup_insert_ne.
Qed.

Lemma resolve_made_others (u : N) (names : list string) (d : gmap string node)
    (other : string) :
  other ∉ names ->
  resolve (foldl (made u) d names) (Path other) = resolve d (Path other).
Proof.
  revert d. induction names as [|name names IH]; intros d Hnot; [done|].
  apply not_elem_of_cons in Hnot as [Hne Hnot].
  rewrite <- (resolve_made_ne u d name other) by done.
  by apply (IH (made u d name)).
Qed.

Lemma present_made_others (u : N) (names : list string) (d : gmap string node)
    (other : string) :
  other ∉ names ->
  present (foldl (made u) d names) (Path other) = present d (Path other).
Proof. intros Hnot. unfold present. by rewrite resolve_made_others. Qed.

Lemma absent_in_snoc (d : gmap string node) (names : list string) (name : string) :
  absent_in d (names ++ [name]) =
  absent_in d names ++ (if present d (Path name) then [] else [name]).
Proof.
  unfold absent_in. rewrite List.filter_app. simpl.
  by destruct (present d (Path name)).
Qed.

Lemma present_in_snoc (d : gmap string node) (names : list string) (name : string) :
  present_in d (names ++ [name]) =
  present_in d names ++ (if present d (Path name) then [name] else []).
Proof.
  unfold present_in. rewrite List.filter_app. simpl.
  by destruct (present d (Path name)).
Qed.

(** The loop of the check, on any list of distinct names. *)
Lemma directory_loop (names : list string) (w : World) :
  NoDup names ->
  let loop :=
    for_each names (fun dir_name =>
      let dir_path := Path dir_name in
      found <- exists_ dir_path ;;
      if negb found then
        warnings_append (dir_not_found dir_name) ;;
        mkdir dir_path ;;
        print ("  📁 Created: " +:+ dir_name)
      else
        print ("  ✓ " +:+ dir_name +:+ " directory exists") ;;
        checks_passed_incr) in
  result loop w = Returned tt /\
  cwd (after loop w) = foldl (made (umask w)) (cwd w) names /\
  umask (after loop w) = umask w /\
  self (after loop w) =
    record (self w) [] (map dir_not_found (absent_in (cwd w) names))
      (length (present_in (cwd w) names)).
Proof.
  intros Hnodup loop. subst loop.
  apply (for_each_invariant (fun done w' =>
    cwd w' = foldl (made (umask w)) (cwd w) done /\
    umask w' = umask w /\
    self w' = record (self w) [] (map dir_not_found (absent_in (cwd w) done))
                (length (present_in (cwd w) done)))).
  - intros done x rest w' Hl (Hcwd & Humask & Hself).
    assert (x ∉ done) as Hfresh.
    { subst names. apply NoDup_app in Hnodup as (_ & Hdis & _).
      intros Hin. apply (Hdis x Hin). left. }
    assert (present (cwd w') (Path x) = present (cwd w) (Path x)) as Hpres.
    { rewrite Hcwd. by apply present_made_others. }
    rewrite foldl_snoc, absent_in_snoc, present_in_snoc, <- Hcwd, <- Humask.
    unfold made. rewrite <- Hpres.
    py_unfold. unfold present. simpl.
    destruct (cwd w' !! x) as [n|] eqn:Hx; simpl; rewrite ?Hx, Hself.
    + repeat split; try done. record_eq.
    + repeat split; try done. record_eq.
  - repeat split; try done. simpl. by rewrite record_nothing.
Qed.

Lemma required_dirs_distinct : NoDup required_dirs.
Proof. by apply (bool_decide_unpack _). Qed.

Lemma check_directory_structure_spec (w : World) :
  result check_directory_structure w = Returned tt /\
  cwd (after check_directory_structure w) =
    foldl (made (umask w)) (cwd w) required_dirs /\
  umask (after check_directory_structure w) = umask w /\
  self (after check_directory_structure w) =
    record (self w) []
      (map dir_not_found (absent_in (cwd w) required_dirs))
      (length (present_in (cwd w) required_dirs)).
Proof.
  unfold check_directory_structure, result, after.
  rewrite (bind_returned (print _) _ w tt eq_refl).
  exact (directory_loop required_dirs (after (print _) w) required_dirs_distinct).
Qed.

(** Each required directory exists after the loop: the entry it had, or else
    a new empty directory. *)
Lemma required_dirs_made (u : N) (d : gmap string node) :
  Forall (fun name =>
            resolve (foldl (made u) d required_dirs) (Path name) =
            match resolve d (Path name) with
            | Some n => Some n
            | None => Some (Dir (new_dir_mode u) ∅)
            end)
         required_dirs.
Proof.
  unfold required_dirs. rewrite !Forall_cons, Forall_nil.
  unfold made, present, Path; simpl;
    destruct (d !! "logs") eqn:Hlogs; simpl;
    rewrite ?lookup_insert_ne by done;
    destruct (d !! "db_backups") eqn:Hbackups; simpl;
    rewrite ?lookup_insert_ne by done;
    destruct (d !! "nginx_ssl") eqn:Hssl; simpl;
    repeat split; by simplify_map_eq.
Qed.

Lemma all_present (u : N) (d : gmap string node) (names : list string) :
  Forall (fun name => present d (Path name) = true) names ->
  absent_in d names = [] /\ present_in d names = names /\
  foldl (made u) d names = d.
Proof.
  unfold absent_in, present_in.
  induction 1 as [|name names Hname _ (IHa & IHp & IHf)]; [done|].
  simpl. unfold made at 2. rewrite Hname. simpl. by rewrite IHa, IHp, IHf.
Qed.


(** ** The ignore-file, build-script and security-headers checks *)

Lemma check_gitignore_spec (w : World) :
  cwd (after check_gitignore w) = cwd w /\
  umask (after check_gitignore w) = umask w /\
  match resolve (cwd w) (Path ".gitignore") with
  | None =>
      result check_gitignore w = Returned tt /\
      self (after check_gitignore w) = record (self w) [] [gitignore_not_found] 0
  | Some (File _ content) =>
      let missing := missing_from (fun pattern => pattern) sensitive_patterns content in
      result check_gitignore w = Returned tt /\
      self (after check_gitignore w) =
        record (self w) [] (report_missing gitignore_missing missing)
          (pass_if_none missing)
  | Some (Dir _ _) =>
      result check_gitignore w = Raised IsADirectoryError /\
      self (after check_gitignore w) = self w
  end.
Proof.
  unfold check_gitignore. py_unfold. unfold present, Path. simpl.
  destruct (cwd w !! ".gitignore") as [[m content|m sub]|] eqn:E; simpl;
    rewrite ?E; simpl.
  - destruct (missing_from (fun pattern => pattern) sensitive_patterns content);
      simpl; repeat split; try done; record_eq.
  - by repeat split.
  - repeat split; try done; record_eq.
Qed.

Lemma check_python_compiled_spec (w : World) :
  result check_python_compiled w = Returned tt /\
  cwd (after check_python_compiled w) = cwd w /\
  umask (after check_python_compiled w) = umask w /\
  self (after check_python_compiled w) =
    if present (cwd w) (Path "build_secure.py")
    then record (self w) [] [] 1
    else record (self w) [] [build_script_not_found] 0.
Proof.
  unfold check_python_compiled. py_run.
  case_present; repeat split; try done; record_eq.
Qed.

Lemma check_security_headers_spec (w : World) :
  cwd (after check_security_headers w) = cwd w /\
  umask (after check_security_headers w) = umask w /\
  match resolve (cwd w) (Path "nginx.prod.conf") with
  | None =>
      result check_security_headers w = Returned tt /\
      self (after check_security_headers w) = self w
  | Some (File _ content) =>
      let missing := missing_from (fun header => header) security_headers content in
      result check_security_headers w = Returned tt /\
      self (after check_security_headers w) =
        record (self w) [] (report_missing headers_missing missing)
          (pass_if_none missing)
  | Some (Dir _ _) =>
      result check_security_headers w = Raised IsADirectoryError /\
      self (after check_security_headers w) = self w
  end.
Proof.
  unfold check_security_headers. py_unfold. unfold present, Path. simpl.
  destruct (cwd w !! "nginx.prod.conf") as [[m content|m sub]|] eqn:E; simpl;
    rewrite ?E; simpl.
  - destruct (missing_from (fun header => header) security_headers content);
      simpl; repeat split; try done; record_eq.
  - by repeat split.
  - repeat split; try done; record_eq.
Qed.

(** C8.  When [nginx.prod.conf] does not exist, the security-headers check
    returns having changed nothing in the checker: the issues, the warnings
    and both counters are the ones it found; the working directory is
    untouched too. *)
Theorem check_security_headers_skips (w : World) :
  present (cwd w) (Path "nginx.prod.conf") = false ->
  result check_security_headers w = Returned tt /\
  self (after check_security_headers w) = self w /\
  cwd (after check_security_headers w) = cwd w.
Proof.
  intros Habsent. destruct (check_security_headers_spec w) as (Hc & _ & Hs).
  unfold present in Habsent.
  destruct (resolve (cwd w) (Path "nginx.prod.conf")); [done|].
  by destruct Hs.
Qed.

(** ** The environment-file check *)

Local Arguments Str.oct : simpl never.
Local Arguments Str.last3 : simpl never.
Local Arguments Str.repeat : simpl never.

Ltac case_contains :=
  match goal with
  | |- context [Str.contains ?p ?t] => destruct (Str.contains p t) eqn:?; simpl
  end.

Lemma check_env_file_spec (w : World) :
  cwd (after check_env_file w) = cwd w /\
  umask (after check_env_file w) = umask w /\
  match resolve (cwd w) (Path ".env") with
  | None =>
      result check_env_file w = Returned tt /\
      self (after check_env_file w) = record (self w) [env_not_found] [] 0
  | Some (File st_mode env_content) =>
      let missing_vars :=
        missing_from (fun var => var +:+ "=") required_vars env_content in
      result check_env_file w = Returned tt /\
      self (after check_env_file w) =
        record (self w) (report_missing env_missing_vars missing_vars)
          (perms_warnings st_mode ++ weak_warnings env_content)
          (pass_if_none missing_vars)
  | Some (Dir st_mode _) =>
      result check_env_file w = Raised IsADirectoryError /\
      self (after check_env_file w) = record (self w) [] (perms_warnings st_mode) 0
  end.
Proof.
  unfold check_env_file. py_unfold. unfold present, perms_warnings, Path. simpl.
  destruct (cwd w !! ".env") as [[m content|m sub]|] eqn:E; simpl;
    rewrite ?E, ?StrFacts.perms_other, ?StrFacts.octal_digit_zero; simpl.
  - destruct (bool_decide (m mod 8 = 0)%N); simpl; rewrite E; simpl;
      destruct (missing_from _ required_vars content); simpl;
      unfold weak_warnings; simpl;
      repeat case_contains; repeat split; try done; record_eq.
  - destruct (bool_decide (m mod 8 = 0)%N); simpl; rewrite E; simpl;
      repeat split; try done; record_eq.
  - repeat split; try done; record_eq.
Qed.

(** ** The reporter *)

Lemma print_summary_spec (w : World) :
  result print_summary w =
    Returned (if bool_decide (issues (self w) = []) then 0 else 1)%Z /\
  cwd (after print_summary w) = cwd w /\
  self (after print_summary w) = self w.
Proof.
  unfold print_summary, result, after.
  do 3 rewrite (bind_returned (print _) _ _ tt eq_refl).
  set (w1 := after _ _).
  assert (cwd w1 = cwd w /\ self w1 = self w) as [Hc Hs] by done.
  clearbody w1. rewrite <- Hc, <- Hs.
  rewrite (bind_returned get_self _ w1 (self w1) eq_refl).
  change (after get_self w1) with w1.
  do 3 rewrite (bind_returned (print _) _ _ tt eq_refl).
  set (w2 := after _ _).
  assert (cwd w2 = cwd w1 /\ self w2 = self w1) as [Hc2 Hs2] by done.
  clearbody w2.
  destruct (issues (self w1)) as [|i il], (warnings (self w1)) as [|x xl];
    simpl; unfold when, bind; simpl; rewrite ?for_each_print; simpl; done.
Qed.

(** ** What every check records *)

Section Records.
Variable P : list string -> Prop.
Hypothesis P_nil : P [].
Hypothesis P_app : forall l1 l2, P l1 -> P l2 -> P (l1 ++ l2).

Lemma records_bind {A B} (m : Py A) (k : A -> Py B) :
  records m P -> (forall a, records (k a) P) -> records (bind m k) P.
Proof.
  intros Hm Hk w. destruct (Hm w) as (i1 & w1 & p1 & H1 & HP1).
  unfold after, bind in *. destruct (m w) as [[a|e] w'] eqn:E; simpl in *.
  - destruct (Hk a w') as (i2 & w2 & p2 & H2 & HP2). unfold after in H2.
    exists (i1 ++ i2), (w1 ++ w2), (p1 + p2).
    rewrite H2, H1, record_record. auto.
  - by exists i1, w1, p1.
Qed.

Lemma records_spec (m : Py unit) (w : World) (i ws : list string) (p : nat) :
  self (after m w) = record (self w) i ws p -> P i ->
  exists new_issues new_warnings passes,
    self (after m w) = record (self w) new_issues new_warnings passes /\
    P new_issues.
Proof. intros. by exists i, ws, p. Qed.

Lemma records_same (m : Py unit) (w : World) :
  self (after m w) = self w ->
  exists new_issues new_warnings passes,
    self (after m w) = record (self w) new_issues new_warnings passes /\
    P new_issues.
Proof. intros ->. exists [], [], 0. by rewrite record_nothing. Qed.

Lemma records_print_summary : records print_summary P.
Proof.
  intros w. destruct (print_summary_spec w) as (_ & _ & Hs).
  unfold after in *. rewrite Hs. exists [], [], 0. by rewrite record_nothing.
Qed.

Lemma records_check_directory_structure : records check_directory_structure P.
Proof.
  intros w. destruct (check_directory_structure_spec w) as (_ & _ & _ & Hs).
  by eapply records_spec.
Qed.

Lemma records_check_gitignore : records check_gitignore P.
Proof.
  intros w. destruct (check_gitignore_spec w) as (_ & _ & Hs).
  destruct (resolve (cwd w) (Path ".gitignore")) as [[]|];
    destruct Hs as [_ Hs]; by eauto using records_spec, records_same.
Qed.

Lemma records_check_python_compiled : records check_python_compiled P.
Proof.
  intros w. destruct (check_python_compiled_spec w) as (_ & _ & _ & Hs).
  destruct (present (cwd w) (Path "build_secure.py")); by eapply records_spec.
Qed.

Lemma records_check_security_headers : records check_security_headers P.
Proof.
  intros w. destruct (check_security_headers_spec w) as (_ & _ & Hs).
  destruct (resolve (cwd w) (Path "nginx.prod.conf")) as [[]|];
    destruct Hs as [_ Hs]; by eauto using records_spec, records_same.
Qed.

End Records.

Lemma records_check_ssl_certificates (P : list string -> Prop) :
  P [] -> (forall d, P (ssl_issues d)) -> records check_ssl_certificates P.
Proof.
  intros Hnil Hssl w. destruct (check_ssl_certificates_spec w) as (_ & _ & _ & Hs).
  destruct (present (cwd w) ssl_dir); by eapply records_spec.
Qed.

Lemma records_check_docker_files (P : list string -> Prop) :
  (forall d, P (map file_not_found (absent_in d required_files))) ->
  records check_docker_files P.
Proof.
  intros Hdocker w. destruct (check_docker_files_spec w) as (_ & _ & _ & Hs).
  by eapply records_spec.
Qed.

Lemma records_check_env_file (P : list string -> Prop) :
  P [] -> P [env_not_found] ->
  (forall l, P (report_missing env_missing_vars l)) ->
  records check_env_file P.
Proof.
  intros Hnil Habsent Hvars w. destruct (check_env_file_spec w) as (_ & _ & Hs).
  destruct (resolve (cwd w) (Path ".env")) as [[]|];
    destruct Hs as [_ Hs]; by eapply records_spec.
Qed.

Lemma records_later_checks (P : list string -> Prop) :
  P [] -> (forall l1 l2, P l1 -> P l2 -> P (l1 ++ l2)) ->
  (forall d, P (ssl_issues d)) ->
  (forall d, P (map file_not_found (absent_in d required_files))) ->
  records later_checks P.
Proof.
  intros Hnil Happ Hssl Hdocker. unfold later_checks.
  apply (records_bind P Happ check_ssl_certificates);
    [by apply records_check_ssl_certificates|intros _].
  apply (records_bind P Happ check_docker_files);
    [by apply records_check_docker_files|intros _].
  apply (records_bind P Happ check_directory_structure);
    [by apply records_check_directory_structure|intros _].
  apply (records_bind P Happ check_gitignore);
    [by apply records_check_gitignore|intros _].
  apply (records_bind P Happ check_python_compiled);
    [by apply records_check_python_compiled|intros _].
  by apply records_check_security_headers.
Qed.

Lemma records_checks : Forall (fun check => records check (fun _ => True)) checks.
Proof.
  unfold checks.
  repeat apply Forall_cons_2; try apply Forall_nil_2;
    auto using records_check_env_file, records_check_ssl_certificates,
      records_check_docker_files, records_check_directory_structure,
      records_check_gitignore, records_check_python_compiled,
      records_check_security_headers.
Qed.

Lemma records_run_all_checks : records run_all_checks (fun _ => True).
Proof.
  change run_all_checks with (bind check_env_file (fun _ => later_checks)).
  apply (records_bind _ (fun _ _ _ _ => I)).
  - by apply records_check_env_file.
  - intros _. by apply records_later_checks.
Qed.

Lemma main_starts (w : World) :
  main w = bind run_all_checks (fun _ => print_summary) (start w).
Proof. reflexivity. Qed.

(** [main] is the environment-file check, then the later checks, then the
    summary, from the world of [start]. *)
Lemma main_unfold (w : World) :
  main w =
  bind check_env_file (fun _ => bind later_checks (fun _ => print_summary))
    (start w).
Proof. rewrite main_starts. apply bind_assoc. Qed.

Lemma records_rest_of_main (P : list string -> Prop) :
  P [] -> (forall l1 l2, P l1 -> P l2 -> P (l1 ++ l2)) ->
  (forall d, P (ssl_issues d)) ->
  (forall d, P (map file_not_found (absent_in d required_files))) ->
  records (bind later_checks (fun _ => print_summary)) P.
Proof.
  intros Hnil Happ Hssl Hdocker. apply (records_bind P Happ).
  - by apply records_later_checks.
  - intros _. by apply records_print_summary.
Qed.

Lemma records_main (w : World) :
  exists new_issues new_warnings passes,
    self (after main w) = record init new_issues new_warnings passes.
Proof.
  unfold after. rewrite main_starts.
  destruct (records_bind (fun _ => True) (fun _ _ _ _ => I)
              run_all_checks (fun _ => print_summary) records_run_all_checks
              (fun _ => records_print_summary _ I) (start w))
    as (i & ws & p & H & _).
  by exists i, ws, p.
Qed.

(** C9.  Each of the seven checks, from any world and whether it returns or
    raises, leaves the issues it found with some issues appended and the
    failed counter it found plus the number of those issues: the failed
    counter and the length of the issues list move together, so a checker
    in which they are equal stays so, as it is at the end of [main].
    [self.warnings.append] changes neither counter (nor the issues), and the
    required-directories check, whose missing-directory branch is a warning,
    leaves the failed counter alone and counts passes and warnings that add
    up to the three directories. *)
Theorem failed_counter_follows_issues :
  Forall (fun check : Py unit =>
            forall w,
              (exists new_issues,
                  issues (self (after check w)) = issues (self w) ++ new_issues /\
                  checks_failed (self (after check w)) =
                    checks_failed (self w) + length new_issues) /\
              (checks_failed (self w) = length (issues (self w)) ->
               checks_failed (self (after check w)) =
                 length (issues (self (after check w)))))
         checks /\
  (forall w, checks_failed (self (after main w)) =
             length (issues (self (after main w)))) /\
  (forall s w,
      issues (self (after (warnings_append s) w)) = issues (self w) /\
      warnings (self (after (warnings_append s) w)) = warnings (self w) ++ [s] /\
      checks_passed (self (after (warnings_append s) w)) = checks_passed (self w) /\
      checks_failed (self (after (warnings_append s) w)) = checks_failed (self w)) /\
  (forall w, exists new_warnings passes,
      self (after check_directory_structure w) =
        record (self w) [] new_warnings passes /\
      length new_warnings + passes = length required_dirs).
Proof.
  split; [|split; [|split]].
  - eapply Forall_impl; [apply records_checks|].
    intros check Hcheck w. destruct (Hcheck w) as (i & ws & p & -> & _).
    split; [by exists i|]. simpl. rewrite length_app. lia.
  - intros w. by destruct (records_main w) as (i & ws & p & ->).
  - done.
  - intros w. destruct (check_directory_structure_spec w) as (_ & _ & _ & Hs).
    eexists _, _. split; [exact Hs|]. rewrite length_map.
    unfold absent_in, present_in.
    pose proof (List.filter_length
                  (fun name => present (cwd w) (Path name)) required_dirs). lia.
Qed.

(** ** The weak-value scan *)

Lemma weak_warnings_In (var pattern env_content : string) :
  In (var, pattern) weak_patterns ->
  Str.contains (Str.lower pattern) (Str.lower env_content) = true ->
  In (weak_value var) (weak_warnings env_content).
Proof.
  intros Hin Hmatch. unfold weak_warnings.
  apply (in_map (fun '(var, _) => weak_value var) _ (var, pattern)).
  apply filter_In. by split.
Qed.

Lemma check_env_file_weak (w : World) (st_mode : N) (env_content var pattern : string) :
  resolve (cwd w) (Path ".env") = Some (File st_mode env_content) ->
  In (var, pattern) weak_patterns ->
  Str.contains (Str.lower pattern) (Str.lower env_content) = true ->
  result check_env_file w = Returned tt /\
  In (weak_value var) (warnings (self (after check_env_file w))).
Proof.
  intros Henv Hin Hmatch. destruct (check_env_file_spec w) as (_ & _ & Hs).
  rewrite Henv in Hs. destruct Hs as [Hr Hs]. split; [done|].
  rewrite Hs. simpl. rewrite !in_app_iff. right. right.
  by apply (weak_warnings_In var pattern).
Qed.

(** What the checks after [m] and the reporter leave of the warnings of [m]:
    all of them. *)
Lemma warnings_kept {A} (m : Py A) (w : World) (x : string) :
  records m (fun _ => True) ->
  In x (warnings (self w)) -> In x (warnings (self (after m w))).
Proof.
  intros Hm Hin. destruct (Hm w) as (i & ws & p & -> & _). simpl.
  apply in_app_iff. by left.
Qed.

(** C7.  When [.env] is a file whose text, lowered, contains
    [secret_key=django-insecure-xyz] (the assignment in any letter case), the
    environment-file check returns with the warning
    [weak_value "SECRET_KEY"] among its warnings, a message that names
    [SECRET_KEY]; and the warning is still there when [main] ends, however
    it ends. *)
Theorem insecure_secret_key_warned (w : World) (st_mode : N) (env_content : string) :
  resolve (cwd w) (Path ".env") = Some (File st_mode env_content) ->
  Str.contains (Str.lower "SECRET_KEY=django-insecure-xyz")
               (Str.lower env_content) = true ->
  Str.contains "SECRET_KEY" (weak_value "SECRET_KEY") = true /\
  result check_env_file w = Returned tt /\
  In (weak_value "SECRET_KEY") (warnings (self (after check_env_file w))) /\
  In (weak_value "SECRET_KEY") (warnings (self (after main w))).
Proof.
  intros Henv Hmatch.
  assert (Str.contains (Str.lower "django-insecure") (Str.lower env_content) = true)
    as Hweak.
  { eapply StrFacts.contains_trans; [|exact Hmatch]. reflexivity. }
  assert (In ("SECRET_KEY", "django-insecure") weak_patterns) as Hin by (by left).
  split; [reflexivity|].
  destruct (check_env_file_weak w st_mode env_content _ _ Henv Hin Hweak) as [Hr Hw].
  repeat split; try done.
  destruct (check_env_file_weak (start w) st_mode env_content _ _ Henv Hin Hweak)
    as [Hr' Hw'].
  unfold after. rewrite main_unfold, (bind_returned _ _ _ tt Hr').
  by apply warnings_kept; [apply records_rest_of_main|].
Qed.

(** C10.  The scan tests each pattern against the whole lowered text of
    [.env] and never looks at the variable of the pair: whenever the lowered
    pattern of a pair occurs anywhere in the lowered text, the warning of the
    pair's variable is recorded.  So for the file [env_user_postgres], whose
    [DB_PASSWORD] line holds a password without [postgres] and whose only line
    with [postgres] is [DB_USER=postgres], the check records the weak-value
    warning for [DB_PASSWORD], and no other weak-value warning. *)
Theorem weak_scan_ignores_variable :
  (forall w st_mode env_content var pattern,
      resolve (cwd w) (Path ".env") = Some (File st_mode env_content) ->
      In (var, pattern) weak_patterns ->
      Str.contains (Str.lower pattern) (Str.lower env_content) = true ->
      In (weak_value var) (warnings (self (after check_env_file w)))) /\
  In ("DB_PASSWORD=" +:+ strong_password) env_user_postgres_lines /\
  Str.contains "postgres" (Str.lower strong_password) = false /\
  List.filter (fun line => Str.contains "postgres" (Str.lower line))
              env_user_postgres_lines = ["DB_USER=postgres"] /\
  weak_warnings env_user_postgres = [weak_value "DB_PASSWORD"] /\
  (forall w st_mode,
      resolve (cwd w) (Path ".env") = Some (File st_mode env_user_postgres) ->
      result check_env_file w = Returned tt /\
      In (weak_value "DB_PASSWORD") (warnings (self (after check_env_file w)))).
Proof.
  split; [|split; [|split; [|split; [|split]]]].
  - intros w st_mode env_content var pattern Henv Hin Hmatch.
    by destruct (check_env_file_weak w st_mode env_content var pattern).
  - right. by left.
  - reflexivity.
  - reflexivity.
  - reflexivity.
  - intros w st_mode Henv.
    apply (check_env_file_weak w st_mode env_user_postgres "DB_PASSWORD" "postgres");
      [done|right; by left|reflexivity].
Qed.

(** ** The run *)

Lemma result_bind {A B} (m : Py A) (k : A -> Py B) (w : World) :
  result (bind m k) w =
  match result m w with
  | Returned a => result (k a) (after m w)
  | Raised e => Raised e
  end.
Proof. unfold result, after, bind. by destruct (m w) as [[] ?]. Qed.

Lemma after_bind {A B} (m : Py A) (k : A -> Py B) (w : World) :
  after (bind m k) w =
  match result m w with
  | Returned a => after (k a) (after m w)
  | Raised e => after m w
  end.
Proof. unfold result, after, bind. by destruct (m w) as [[] ?]. Qed.

Lemma is_dir_made (u : N) (d : gmap string node) (name : string) :
  name ∉ required_dirs ->
  is_dir (foldl (made u) d required_dirs) (Path name) = is_dir d (Path name).
Proof. intros Hnot. unfold is_dir. by rewrite resolve_made_others. Qed.

(** The later checks raise exactly when [.gitignore] or [nginx.prod.conf] is
    a directory. *)
Lemma later_checks_result (w : World) :
  result later_checks w =
  if is_dir (cwd w) (Path ".gitignore") || is_dir (cwd w) (Path "nginx.prod.conf")
  then Raised IsADirectoryError
  else Returned tt.
Proof.
  unfold later_checks.
  destruct (check_ssl_certificates_spec w) as (Hr1 & Hc1 & Hu1 & _).
  rewrite result_bind, Hr1. set (w1 := after check_ssl_certificates w) in *.
  destruct (check_docker_files_spec w1) as (Hr2 & Hc2 & Hu2 & _).
  rewrite result_bind, Hr2. set (w2 := after check_docker_files w1) in *.
  destruct (check_directory_structure_spec w2) as (Hr3 & Hc3 & Hu3 & _).
  rewrite result_bind, Hr3. set (w3 := after check_directory_structure w2) in *.
  assert (forall name, name ∉ required_dirs ->
            resolve (cwd w3) (Path name) = resolve (cwd w) (Path name)) as Hsame.
  { intros name Hname. by rewrite Hc3, resolve_made_others, Hc2, Hc1. }
  destruct (check_gitignore_spec w3) as (Hc4 & Hu4 & Hs4).
  rewrite result_bind. unfold is_dir.
  rewrite Hsame in Hs4 by (by apply (bool_decide_unpack _)).
  destruct (resolve (cwd w) (Path ".gitignore")) as [[]|];
    destruct Hs4 as [-> _]; [|done|].
  all: set (w4 := after check_gitignore w3) in *;
    destruct (check_python_compiled_spec w4) as (Hr5 & Hc5 & Hu5 & _);
    rewrite result_bind, Hr5; set (w5 := after check_python_compiled w4) in *;
    destruct (check_security_headers_spec w5) as (Hc6 & Hu6 & Hs6);
    rewrite Hc5, Hc4, Hsame in Hs6 by (by apply (bool_decide_unpack _));
    destruct (resolve (cwd w) (Path "nginx.prod.conf")) as [[]|];
    by destruct Hs6 as [-> _].
Qed.

(** The model run on the empty directory: the scenario of the specification. *)
Example empty_directory_run :
  result main (in_dir ∅) = Returned 1%Z /\
  issues (self (after main (in_dir ∅))) =
    [env_not_found; file_not_found "Dockerfile.prod";
     file_not_found "docker-compose.prod.yml";
     file_not_found "entrypoint.prod.sh"; file_not_found "nginx.prod.conf"] /\
  length (warnings (self (after main (in_dir ∅)))) = 6 /\
  everything_present (cwd (after main (in_dir ∅))) = false /\
  forallb (fun name => is_dir (cwd (after main (in_dir ∅))) (Path name))
          required_dirs = true.
Proof. vm_compute. by repeat split. Qed.

Example oct_st_mode : Str.oct 33188 = "0o100644" /\ Str.last3 (Str.oct 33188) = "644".
Proof. by vm_compute. Qed.

(** The status the process exits with after [main] was run in [w]. *)
Lemma main_result (w : World) :
  result main w =
  match result run_all_checks (start w) with
  | Returned _ =>
      Returned (if bool_decide (issues (self (after main w)) = []) then 0 else 1)%Z
  | Raised e => Raised e
  end.
Proof.
  pose proof (main_starts w) as Hmain. unfold result, after. rewrite Hmain.
  unfold bind. destruct (run_all_checks (start w)) as [[[]|e] w1]; simpl; [|done].
  destruct (print_summary_spec w1) as (Hr & _ & Hs). unfold result, after in *.
  by rewrite Hr, Hs.
Qed.

(** C1, as the code has it.  The exit status is 1 whenever an issue was
    recorded and whenever a check raised, and it is 0 exactly when the run
    reached the summary with an empty issues list.  So for a run that
    returns from [main], the status is 0 if and only if the issues list is
    empty; the warnings play no part, the status that [print_summary] returns
    being a function of the issues alone. *)
Theorem exit_status_of_run (w : World) :
  let o := result main w in
  let c := self (after main w) in
  exit_status o =
    match o with
    | Returned _ => if bool_decide (issues c = []) then 0%Z else 1%Z
    | Raised _ => 1%Z
    end /\
  (issues c <> [] -> exit_status o = 1%Z) /\
  (exit_status o = 0%Z -> issues c = []) /\
  (forall code, o = Returned code -> (exit_status o = 0%Z <-> issues c = [])) /\
  (forall w', result print_summary w' =
              Returned (if bool_decide (issues (self w') = []) then 0%Z else 1%Z)).
Proof.
  intros o c.
  assert (exit_status o =
          match o with
          | Returned _ => if bool_decide (issues c = []) then 0%Z else 1%Z
          | Raised _ => 1%Z
          end) as Hstatus.
  { subst o c. rewrite main_result.
    by destruct (result run_all_checks (start w)). }
  split; [done|]. rewrite Hstatus. repeat split.
  - intros Hissues. destruct o; [|done]. by rewrite bool_decide_eq_false_2.
  - destruct o; [|done]. by case_bool_decide.
  - destruct o; [|done]. by case_bool_decide.
  - intros ->. destruct o; [|done]. by rewrite bool_decide_eq_true_2.
  - intros w'. by destruct (print_summary_spec w') as (-> & _).
Qed.

(** C1 as it is stated fails where a check raises before any issue is
    recorded: with [.env] a directory, [read_text] raises, the process exits
    with status 1, and the issues list is empty. *)
Lemma exit_status_env_directory :
  exit_status (result main (in_dir env_is_directory)) = 1%Z /\
  issues (self (after main (in_dir env_is_directory))) = [] /\
  ~ (exit_status (result main (in_dir env_is_directory)) = 0%Z <->
     issues (self (after main (in_dir env_is_directory))) = []).
Proof.
  split; [by vm_compute|]. split; [by vm_compute|].
  intros [_ H]. by specialize (H eq_refl).
Qed.

(** ** A run without the environment file *)

Lemma naming_app (file : string) (l1 l2 : list string) :
  naming file (l1 ++ l2) = naming file l1 ++ naming file l2.
Proof. apply List.filter_app. Qed.

Lemma ssl_issues_not_env (d : gmap string node) : naming ".env" (ssl_issues d) = [].
Proof.
  unfold ssl_issues. by destruct (present d cert_file), (present d key_file).
Qed.

Lemma docker_issues_not_env (d : gmap string node) :
  naming ".env" (map file_not_found (absent_in d required_files)) = [].
Proof.
  unfold absent_in, required_files. cbn [List.filter].
  repeat case_present; reflexivity.
Qed.

(** C3, as the code has it.  When [.env] does not exist, the
    environment-file check returns having appended the one issue
    [env_not_found], which names [.env], and nothing else; [main] goes on
    with the later checks from there, and whatever they append, that issue
    stays the only one naming [.env].  The run ends in the summary with exit
    status 1, unless a later check raises: then the run ends with that
    exception where the later checks stopped, and the summary is not
    printed. *)
Theorem missing_env_file (w : World) :
  present (cwd w) (Path ".env") = false ->
  let w1 := after check_env_file (start w) in
  result check_env_file (start w) = Returned tt /\
  self w1 = record init [env_not_found] [] 0 /\
  cwd w1 = cwd w /\
  Str.contains ".env" env_not_found = true /\
  main w = bind later_checks (fun _ => print_summary) w1 /\
  (exists new_issues new_warnings passes,
      self (after main w) =
        record init (env_not_found :: new_issues) new_warnings passes /\
      naming ".env" new_issues = []) /\
  naming ".env" (issues (self (after main w))) = [env_not_found] /\
  result main w =
    match result later_checks w1 with
    | Returned _ => Returned 1%Z
    | Raised e => Raised e
    end /\
  after main w =
    match result later_checks w1 with
    | Returned _ => after print_summary (after later_checks w1)
    | Raised _ => after later_checks w1
    end.
Proof.
  intros Habsent w1.
  destruct (check_env_file_spec (start w)) as (Hc & _ & Hs). fold w1 in Hc, Hs.
  change (cwd (start w)) with (cwd w) in *. unfold present in Habsent.
  destruct (resolve (cwd w) (Path ".env")); [done|]. destruct Hs as [Hr Hs].
  change (self (start w)) with init in Hs.
  assert (main w = bind later_checks (fun _ => print_summary) w1) as Hmain.
  { by rewrite main_unfold, (bind_returned _ _ _ tt Hr). }
  destruct (records_rest_of_main (fun new => naming ".env" new = []) eq_refl
              (fun l1 l2 H1 H2 => eq_trans (naming_app _ l1 l2)
                                   (eq_trans (f_equal2 app H1 H2) eq_refl))
              ssl_issues_not_env docker_issues_not_env w1)
    as (i & ws & p & Hrec & Hnaming).
  assert (self (after main w) = record init (env_not_found :: i) ws p) as Hself.
  { unfold after. rewrite Hmain. unfold after in Hrec. rewrite Hrec, Hs.
    by rewrite record_record. }
  repeat split; try done.
  - by exists i, ws, p.
  - rewrite Hself.
    change (issues (record init (env_not_found :: i) ws p))
      with ([env_not_found] ++ i).
    by rewrite naming_app, Hnaming.
  - rewrite main_result.
    change run_all_checks with (bind check_env_file (fun _ => later_checks)).
    rewrite result_bind, Hr. fold w1.
    destruct (result later_checks w1); [|done]. by rewrite Hself.
  - unfold after at 1. rewrite Hmain.
    apply (after_bind later_checks (fun _ => print_summary) w1).
Qed.

Lemma missing_env_file_witness :
  present (cwd (in_dir ∅)) (Path ".env") = false /\
  naming ".env" (issues (self (after main (in_dir ∅)))) = [env_not_found] /\
  result main (in_dir ∅) = Returned 1%Z.
Proof.
  assert (present (cwd (in_dir ∅)) (Path ".env") = false) as Habsent
    by reflexivity.
  split; [exact Habsent|].
  destruct (missing_env_file (in_dir ∅) Habsent)
    as (_ & _ & _ & _ & _ & _ & H1 & H2 & _).
  split; [exact H1|]. rewrite H2. vm_compute. reflexivity.
Defined.

(** C3 as it is stated fails where a later check raises: with no [.env] and
    [.gitignore] a directory, the ignore-file check raises, the run ends
    there, and the build-script and security-headers checks are never
    started. *)
Lemma missing_env_file_gitignore_directory :
  present (cwd (in_dir gitignore_is_directory)) (Path ".env") = false /\
  result main (in_dir gitignore_is_directory) = Raised IsADirectoryError /\
  In (nl +:+ "🔍 Checking .gitignore configuration...")
     (stdout (after main (in_dir gitignore_is_directory))) /\
  ~ In (nl +:+ "🔍 Checking code compilation setup...")
       (stdout (after main (in_dir gitignore_is_directory))) /\
  ~ In (nl +:+ "🔍 Checking security headers configuration...")
       (stdout (after main (in_dir gitignore_is_directory))).
Proof.
  split; [reflexivity|]. split; [by vm_compute|].
  split; [vm_compute; tauto|].
  split; vm_compute; intros H; repeat (destruct H as [H|H]; [done|]); done.
Qed.

(** ** A run in a complete directory *)

Lemma no_weak_warnings (env_content : string) :
  Forall (fun '(_, pattern) =>
            Str.contains (Str.lower pattern) (Str.lower env_content) = false)
         weak_patterns ->
  weak_warnings env_content = [].
Proof.
  unfold weak_warnings. generalize weak_patterns.
  induction 1 as [|[var pattern] l Hx _ IH]; [done|].
  cbn [List.filter]. by rewrite Hx.
Qed.

Lemma all_present_forallb (d : gmap string node) (names : list string) :
  forallb (fun name => present d (Path name)) names = true ->
  Forall (fun name => present d (Path name) = true) names.
Proof. rewrite forallb_forall, Forall_forall. intros H x Hx. apply H. by apply list_elem_of_In. Qed.

Ltac run_step Hr :=
  rewrite ?result_bind, ?after_bind; rewrite !Hr; cbv beta iota.

Lemma run_all_checks_ready (w : World) (env_mode gitignore_mode conf_mode : N)
    (env_content gitignore nginx_conf : string) :
  everything_present (cwd w) = true ->
  resolve (cwd w) (Path ".env") = Some (File env_mode env_content) ->
  (env_mode mod 8 = 0)%N ->
  missing_from (fun var => var +:+ "=") required_vars env_content = [] ->
  weak_warnings env_content = [] ->
  resolve (cwd w) (Path ".gitignore") = Some (File gitignore_mode gitignore) ->
  missing_from (fun pattern => pattern) sensitive_patterns gitignore = [] ->
  resolve (cwd w) (Path "nginx.prod.conf") = Some (File conf_mode nginx_conf) ->
  missing_from (fun header => header) security_headers nginx_conf = [] ->
  result run_all_checks w = Returned tt /\
  cwd (after run_all_checks w) = cwd w /\
  self (after run_all_checks w) = record (self w) [] [] 13.
Proof.
  intros Hall Henv Hmode Hvars Hweak Hgit Hpatterns Hconf Hheaders.
  unfold everything_present in Hall. rewrite !andb_true_iff in Hall.
  destruct Hall as (((((((_ & Hssl) & Hcert) & Hkey) & Hfiles) & Hdirs) & _) & Hbuild).
  apply all_present_forallb in Hfiles, Hdirs.
  unfold run_all_checks.
  destruct (check_env_file_spec w) as (Hc1 & Hu1 & Hs1).
  rewrite Henv in Hs1. destruct Hs1 as [Hr1 Hs1]. cbv zeta in Hs1.
  rewrite Hvars, Hweak in Hs1. unfold perms_warnings in Hs1.
  rewrite bool_decide_eq_true_2 in Hs1 by done. simpl in Hs1.
  run_step Hr1. set (w1 := after check_env_file w) in *. clearbody w1.
  destruct (check_ssl_certificates_spec w1) as (Hr2 & Hc2 & Hu2 & Hs2).
  unfold ssl_issues, ssl_passes in Hs2.
  rewrite Hc1, Hssl, Hcert, Hkey in Hs2. simpl in Hs2.
  run_step Hr2. set (w2 := after check_ssl_certificates w1) in *. clearbody w2.
  destruct (check_docker_files_spec w2) as (Hr3 & Hc3 & Hu3 & Hs3).
  rewrite Hc2, Hc1 in Hs3.
  destruct (all_present 0 (cwd w) required_files Hfiles) as (Ha & Hp & _).
  rewrite Ha, Hp in Hs3. simpl in Hs3.
  run_step Hr3. set (w3 := after check_docker_files w2) in *. clearbody w3.
  destruct (check_directory_structure_spec w3) as (Hr4 & Hc4 & Hu4 & Hs4).
  rewrite Hc3, Hc2, Hc1 in Hs4, Hc4.
  destruct (all_present (umask w3) (cwd w) required_dirs Hdirs) as (Ha' & Hp' & Hf').
  rewrite Ha', Hp' in Hs4. rewrite Hf' in Hc4. simpl in Hs4.
  run_step Hr4. set (w4 := after check_directory_structure w3) in *. clearbody w4.
  destruct (check_gitignore_spec w4) as (Hc5 & Hu5 & Hs5).
  rewrite Hc4, Hgit in Hs5. destruct Hs5 as [Hr5 Hs5]. cbv zeta in Hs5.
  rewrite Hpatterns in Hs5. simpl in Hs5.
  run_step Hr5. set (w5 := after check_gitignore w4) in *. clearbody w5.
  destruct (check_python_compiled_spec w5) as (Hr6 & Hc6 & Hu6 & Hs6).
  rewrite Hc5, Hc4, Hbuild in Hs6.
  run_step Hr6. set (w6 := after check_python_compiled w5) in *. clearbody w6.
  destruct (check_security_headers_spec w6) as (Hc7 & Hu7 & Hs7).
  rewrite Hc6, Hc5, Hc4, Hconf in Hs7. destruct Hs7 as [Hr7 Hs7]. cbv zeta in Hs7.
  rewrite Hheaders in Hs7. simpl in Hs7.
  split; [done|]. split; [by rewrite Hc7, Hc6, Hc5, Hc4|].
  rewrite Hs7, Hs6, Hs5, Hs4, Hs3, Hs2, Hs1, !record_record. done.
Qed.

(** C2, as the code has it.  When every path the checks look for exists and
    no weak pattern occurs in [.env], and moreover [.env] is a file that
    grants nothing to others (last octal digit of its mode 0) and holds every
    required assignment, [.gitignore] is a file holding every sensitive
    pattern and [nginx.prod.conf] is a file holding every security header,
    then [main] returns 0 with no issue and no warning, thirteen passes and
    no failure, and the working directory as it was. *)
Theorem deployment_ready (w : World) (env_mode gitignore_mode conf_mode : N)
    (env_content gitignore nginx_conf : string) :
  everything_present (cwd w) = true ->
  Forall (fun '(_, pattern) =>
            Str.contains (Str.lower pattern) (Str.lower env_content) = false)
         weak_patterns ->
  resolve (cwd w) (Path ".env") = Some (File env_mode env_content) ->
  (env_mode mod 8 = 0)%N ->
  missing_from (fun var => var +:+ "=") required_vars env_content = [] ->
  resolve (cwd w) (Path ".gitignore") = Some (File gitignore_mode gitignore) ->
  missing_from (fun pattern => pattern) sensitive_patterns gitignore = [] ->
  resolve (cwd w) (Path "nginx.prod.conf") = Some (File conf_mode nginx_conf) ->
  missing_from (fun header => header) security_headers nginx_conf = [] ->
  result main w = Returned 0%Z /\
  exit_status (result main w) = 0%Z /\
  issues (self (after main w)) = [] /\
  warnings (self (after main w)) = [] /\
  checks_passed (self (after main w)) = 13 /\
  checks_failed (self (after main w)) = 0 /\
  cwd (after main w) = cwd w.
Proof.
  intros Hall Hweak Henv Hmode Hvars Hgit Hpatterns Hconf Hheaders.
  apply no_weak_warnings in Hweak.
  destruct (run_all_checks_ready (start w) env_mode gitignore_mode conf_mode
              env_content gitignore nginx_conf) as (Hr & Hc & Hs); try done.
  change (self (start w)) with init in Hs. change (cwd (start w)) with (cwd w) in Hc.
  destruct (print_summary_spec (after run_all_checks (start w))) as (Hr' & Hc' & Hs').
  assert (after main w = after print_summary (after run_all_checks (start w)))
    as Hafter.
  { unfold after at 1. rewrite main_starts.
    fold (after (bind run_all_checks (fun _ => print_summary)) (start w)).
    by rewrite after_bind, Hr. }
  assert (result main w = Returned 0%Z) as Hmain.
  { unfold result at 1. rewrite main_starts.
    fold (result (bind run_all_checks (fun _ => print_summary)) (start w)).
    by rewrite result_bind, Hr, Hr', Hs. }
  rewrite Hmain, Hafter, Hs', Hc', Hc, Hs. by repeat split.
Qed.

Lemma deployment_ready_witness :
  everything_present (cwd (in_dir (deployment 33152))) = true /\
  result main (in_dir (deployment 33152)) = Returned 0%Z /\
  issues (self (after main (in_dir (deployment 33152)))) = [] /\
  warnings (self (after main (in_dir (deployment 33152)))) = [].
Proof.
  assert (everything_present (cwd (in_dir (deployment 33152))) = true) as Hall
    by (vm_compute; reflexivity).
  assert (Forall (fun '(_, pattern) =>
                    Str.contains (Str.lower pattern) (Str.lower env_good) = false)
                 weak_patterns) as Hweak
    by (repeat (apply Forall_cons_2; [vm_compute; reflexivity|]);
        apply Forall_nil_2).
  assert (resolve (cwd (in_dir (deployment 33152))) (Path ".env") =
          Some (File 33152 env_good)) as Henv by (vm_compute; reflexivity).
  assert (33152 mod 8 = 0)%N as Hmode by reflexivity.
  assert (missing_from (fun var => var +:+ "=") required_vars env_good = [])
    as Hvars by (vm_compute; reflexivity).
  assert (resolve (cwd (in_dir (deployment 33152))) (Path ".gitignore") =
          Some (File 33188 gitignore_good)) as Hgit by (vm_compute; reflexivity).
  assert (missing_from (fun pattern => pattern) sensitive_patterns gitignore_good
          = []) as Hpatterns by (vm_compute; reflexivity).
  assert (resolve (cwd (in_dir (deployment 33152))) (Path "nginx.prod.conf") =
          Some (File 33188 nginx_conf_good)) as Hconf by (vm_compute; reflexivity).
  assert (missing_from (fun header => header) security_headers nginx_conf_good
          = []) as Hheaders by (vm_compute; reflexivity).
  split; [exact Hall|].
  destruct (deployment_ready (in_dir (deployment 33152)) 33152 33188 33188
              env_good gitignore_good nginx_conf_good
              Hall Hweak Henv Hmode Hvars Hgit Hpatterns Hconf Hheaders)
    as (H1 & _ & H2 & H3 & _).
  split; [exact H1|]. split; [exact H2|exact H3].
Defined.

(** C2 as it is stated fails on the mode of [.env]: in a directory where
    every path exists, every text is complete and no weak pattern occurs,
    but [.env] has the mode 644, the run ends with one warning. *)
Lemma deployment_world_readable :
  everything_present (cwd (in_dir (deployment 33188))) = true /\
  Forall (fun '(_, pattern) =>
            Str.contains (Str.lower pattern) (Str.lower env_good) = false)
         weak_patterns /\
  resolve (cwd (in_dir (deployment 33188))) (Path ".env") =
    Some (File 33188 env_good) /\
  result main (in_dir (deployment 33188)) = Returned 0%Z /\
  issues (self (after main (in_dir (deployment 33188)))) = [] /\
  warnings (self (after main (in_dir (deployment 33188)))) = [env_world_readable] /\
  warnings (self (after main (in_dir (deployment 33188)))) <> [].
Proof.
  split; [vm_compute; reflexivity|].
  split; [repeat (apply Forall_cons_2; [vm_compute; reflexivity|]);
          apply Forall_nil_2|].
  split; [vm_compute; reflexivity|]. split; [vm_compute; reflexivity|].
  split; [vm_compute; reflexivity|].
  assert (warnings (self (after main (in_dir (deployment 33188)))) =
          [env_world_readable]) as -> by (vm_compute; reflexivity).
  by split.
Qed.

(** ** The theorems at work on concrete directories *)

Lemma insecure_secret_key_warned_witness :
  resolve (cwd (in_dir insecure_deployment)) (Path ".env") =
    Some (File 33152 "SECRET_KEY=DJANGO-INSECURE-XYZ") /\
  Str.contains (Str.lower "SECRET_KEY=django-insecure-xyz")
               (Str.lower "SECRET_KEY=DJANGO-INSECURE-XYZ") = true /\
  In (weak_value "SECRET_KEY")
     (warnings (self (after main (in_dir insecure_deployment)))).
Proof.
  assert (resolve (cwd (in_dir insecure_deployment)) (Path ".env") =
          Some (File 33152 "SECRET_KEY=DJANGO-INSECURE-XYZ")) as Henv
    by (vm_compute; reflexivity).
  assert (Str.contains (Str.lower "SECRET_KEY=django-insecure-xyz")
                       (Str.lower "SECRET_KEY=DJANGO-INSECURE-XYZ") = true)
    as Hmatch by (vm_compute; reflexivity).
  split; [exact Henv|]. split; [exact Hmatch|].
  destruct (insecure_secret_key_warned (in_dir insecure_deployment) 33152
              "SECRET_KEY=DJANGO-INSECURE-XYZ" Henv Hmatch) as (_ & _ & _ & H).
  exact H.
Defined.

Lemma check_security_headers_skips_witness :
  present (cwd (in_dir ∅)) (Path "nginx.prod.conf") = false /\
  self (after check_security_headers (in_dir ∅)) = self (in_dir ∅).
Proof.
  assert (present (cwd (in_dir ∅)) (Path "nginx.prod.conf") = false) as Habsent
    by reflexivity.
  split; [exact Habsent|].
  destruct (check_security_headers_skips (in_dir ∅) Habsent) as (_ & H & _).
  exact H.
Defined.

(** * Further properties of the checks and of the run *)

(** ** The ignore-file, build-script and security-headers checks *)

(** X1.  The ignore-file check never records an issue nor counts a failure
    and never touches the working directory.  Without [.gitignore] it
    appends the one warning [gitignore_not_found].  With [.gitignore] a file
    it records exactly one thing: a pass when every sensitive pattern occurs
    in the text, else one warning that lists the patterns that do not, in the
    order of the list, joined by a comma and a space.  With [.gitignore] a
    directory it raises and records nothing. *)
Theorem check_gitignore_outcome (w : World) :
  let w' := after check_gitignore w in
  cwd w' = cwd w /\
  issues (self w') = issues (self w) /\
  checks_failed (self w') = checks_failed (self w) /\
  match resolve (cwd w) (Path ".gitignore") with
  | None =>
      result check_gitignore w = Returned tt /\
      warnings (self w') = warnings (self w) ++ [gitignore_not_found] /\
      checks_passed (self w') = checks_passed (self w)
  | Some (File _ content) =>
      let missing :=
        List.filter (fun pattern => negb (Str.contains pattern content))
                    sensitive_patterns in
      result check_gitignore w = Returned tt /\
      checks_passed (self w') + length (warnings (self w')) =
        checks_passed (self w) + length (warnings (self w)) + 1 /\
      match missing with
      | [] =>
          warnings (self w') = warnings (self w) /\
          checks_passed (self w') = checks_passed (self w) + 1
      | _ :: _ =>
          warnings (self w') =
            warnings (self w) ++
            ["⚠️  Missing patterns in .gitignore: " +:+ Str.join ", " missing] /\
          checks_passed (self w') = checks_passed (self w)
      end
  | Some (Dir _ _) =>
      result check_gitignore w = Raised IsADirectoryError /\
      self w' = self w
  end.
Proof.
  intros w'. destruct (check_gitignore_spec w) as (Hc & _ & Hs). fold w' in Hc, Hs.
  split; [done|].
  destruct (resolve (cwd w) (Path ".gitignore")) as [[m content|m sub]|].
  - cbv zeta in Hs. destruct Hs as [Hr Hs]. rewrite Hs.
    change (List.filter (fun pattern => negb (Str.contains pattern content))
                        sensitive_patterns)
      with (missing_from (fun pattern => pattern) sensitive_patterns content).
    destruct (missing_from _ sensitive_patterns content); cbn;
      rewrite ?app_nil_r, ?length_app; cbn; repeat split; try done; lia.
  - destruct Hs as [Hr Hs]. rewrite Hs. by repeat split.
  - destruct Hs as [Hr Hs]. rewrite Hs. cbn. rewrite app_nil_r.
    repeat split; try done; lia.
Qed.

(** X2.  The security-headers check, when [nginx.prod.conf] is a file, never
    records an issue nor counts a failure and records exactly one thing: a
    pass when every header name occurs in the text, else one warning that
    lists the header names that do not, in the order of the list, joined by
    a comma and a space.  When [nginx.prod.conf] is a directory it raises
    and records nothing. *)
Theorem check_security_headers_outcome (w : World) :
  let w' := after check_security_headers w in
  cwd w' = cwd w /\
  issues (self w') = issues (self w) /\
  checks_failed (self w') = checks_failed (self w) /\
  match resolve (cwd w) (Path "nginx.prod.conf") with
  | None => result check_security_headers w = Returned tt
  | Some (File _ content) =>
      let missing :=
        List.filter (fun header => negb (Str.contains header content))
                    security_headers in
      result check_security_headers w = Returned tt /\
      checks_passed (self w') + length (warnings (self w')) =
        checks_passed (self w) + length (warnings (self w)) + 1 /\
      match missing with
      | [] =>
          warnings (self w') = warnings (self w) /\
          checks_passed (self w') = checks_passed (self w) + 1
      | _ :: _ =>
          warnings (self w') =
            warnings (self w) ++
            ["⚠️  Missing security headers: " +:+ Str.join ", " missing] /\
          checks_passed (self w') = checks_passed (self w)
      end
  | Some (Dir _ _) =>
      result check_security_headers w = Raised IsADirectoryError /\
      self w' = self w
  end.
Proof.
  intros w'. destruct (check_security_headers_spec w) as (Hc & _ & Hs).
  fold w' in Hc, Hs. split; [done|].
  destruct (resolve (cwd w) (Path "nginx.prod.conf")) as [[m content|m sub]|].
  - cbv zeta in Hs. destruct Hs as [Hr Hs]. rewrite Hs.
    change (List.filter (fun header => negb (Str.contains header content))
                        security_headers)
      with (missing_from (fun header => header) security_headers content).
    destruct (missing_from _ security_headers content); cbn;
      rewrite ?app_nil_r, ?length_app; cbn; repeat split; try done; lia.
  - destruct Hs as [Hr Hs]. rewrite Hs. by repeat split.
  - destruct Hs as [Hr Hs]. rewrite Hs. by repeat split.
Qed.

(** X3.  The build-script check always returns, changes nothing in the
    working directory, never records an issue nor counts a failure, and
    records one pass when [build_secure.py] exists, one warning when it does
    not. *)
Theorem check_python_compiled_outcome (w : World) :
  let w' := after check_python_compiled w in
  result check_python_compiled w = Returned tt /\
  cwd w' = cwd w /\
  issues (self w') = issues (self w) /\
  checks_failed (self w') = checks_failed (self w) /\
  if present (cwd w) (Path "build_secure.py") then
    warnings (self w') = warnings (self w) /\
    checks_passed (self w') = checks_passed (self w) + 1
  else
    warnings (self w') = warnings (self w) ++ [build_script_not_found] /\
    checks_passed (self w') = checks_passed (self w).
Proof.
  intros w'. destruct (check_python_compiled_spec w) as (Hr & Hc & _ & Hs).
  fold w' in Hc, Hs. rewrite Hs.
  destruct (present (cwd w) (Path "build_secure.py")); cbn;
    rewrite ?app_nil_r; repeat split; try done; lia.
Qed.

(** ** The environment-file check *)

Lemma weak_warnings_not_world_readable (env_content : string) :
  ~ In env_world_readable (weak_warnings env_content).
Proof.
  unfold weak_warnings. rewrite in_map_iff. intros ([var pattern] & Heq & Hin).
  apply filter_In in Hin as [Hin _].
  unfold weak_patterns in Hin. simpl in Hin.
  repeat (destruct Hin as [[= <- <-]|Hin]; [vm_compute in Heq; discriminate|]).
  done.
Qed.

(** X4.  When [.env] is a file, the world-readable warning depends on the
    last octal digit of its mode alone: it is recorded, once and before the
    weak-value warnings, exactly when that digit is not 0, that is when
    others hold any of the read, write or execute bits; the file type, owner
    and group bits play no part, so two modes with the same last digit leave
    the same checker. *)
Theorem env_permission_warning (w : World) (st_mode : N) (env_content : string) :
  resolve (cwd w) (Path ".env") = Some (File st_mode env_content) ->
  let new_warnings :=
    (if bool_decide (st_mode mod 8 = 0)%N then [] else [env_world_readable]) ++
    weak_warnings env_content in
  warnings (self (after check_env_file w)) = warnings (self w) ++ new_warnings /\
  (In env_world_readable new_warnings <-> (st_mode mod 8 <> 0)%N) /\
  (forall w2 st_mode2,
      resolve (cwd w2) (Path ".env") = Some (File st_mode2 env_content) ->
      (st_mode2 mod 8 = st_mode mod 8)%N ->
      self w2 = self w ->
      self (after check_env_file w2) = self (after check_env_file w)).
Proof.
  intros Henv new_warnings.
  destruct (check_env_file_spec w) as (_ & _ & Hs). rewrite Henv in Hs.
  destruct Hs as [_ Hs]. cbv zeta in Hs. split; [by rewrite Hs|]. split.
  - subst new_warnings. rewrite in_app_iff. case_bool_decide as Hmode; split.
    + intros [[]|Hin]. by apply weak_warnings_not_world_readable in Hin.
    + done.
    + done.
    + intros _. left. by left.
  - intros w2 st_mode2 Henv2 Hmode Hself.
    destruct (check_env_file_spec w2) as (_ & _ & Hs2). rewrite Henv2 in Hs2.
    destruct Hs2 as [_ Hs2]. cbv zeta in Hs2.
    rewrite Hs, Hs2, Hself. unfold perms_warnings. by rewrite Hmode.
Qed.

Lemma env_permission_warning_witness :
  resolve (cwd (in_dir (deployment 33188))) (Path ".env") =
    Some (File 33188 env_good) /\
  warnings (self (after check_env_file (in_dir (deployment 33188)))) =
    [env_world_readable].
Proof.
  assert (resolve (cwd (in_dir (deployment 33188))) (Path ".env") =
          Some (File 33188 env_good)) as Henv by (vm_compute; reflexivity).
  split; [exact Henv|].
  destruct (env_permission_warning (in_dir (deployment 33188)) 33188 env_good Henv)
    as (H & _).
  exact H.
Defined.

(** X5.  When [.env] is a file, the required-variable scan always returns
    and records exactly one thing: a pass when every [NAME=] occurs in the
    text, else one issue, with one failure, that lists the names whose
    [NAME=] does not occur, in the order of the list, joined by a comma and a
    space.  The message names exactly the missing variables: a required
    name occurs in it if and only if its [NAME=] does not occur in the
    text. *)
Theorem env_required_variables (w : World) (st_mode : N) (env_content : string) :
  resolve (cwd w) (Path ".env") = Some (File st_mode env_content) ->
  let w' := after check_env_file w in
  let missing_vars :=
    List.filter (fun var => negb (Str.contains (var +:+ "=") env_content))
                required_vars in
  let message :=
    "❌ Missing environment variables: " +:+ Str.join ", " missing_vars in
  result check_env_file w = Returned tt /\
  match missing_vars with
  | [] =>
      issues (self w') = issues (self w) /\
      checks_failed (self w') = checks_failed (self w) /\
      checks_passed (self w') = checks_passed (self w) + 1
  | _ :: _ =>
      issues (self w') = issues (self w) ++ [message] /\
      checks_failed (self w') = checks_failed (self w) + 1 /\
      checks_passed (self w') = checks_passed (self w)
  end /\
  Forall (fun var =>
            Str.contains var message =
            negb (Str.contains (var +:+ "=") env_content))
         required_vars.
Proof.
  intros Henv w' missing_vars message.
  destruct (check_env_file_spec w) as (_ & _ & Hs). rewrite Henv in Hs.
  destruct Hs as [Hr Hs]. cbv zeta in Hs. fold w' in Hs. split; [done|]. split.
  - rewrite Hs.
    change (missing_from (fun var => var +:+ "=") required_vars env_content)
      with missing_vars.
    destruct missing_vars; cbn; rewrite ?app_nil_r; repeat split; try done; lia.
  - subst message missing_vars. unfold required_vars.
    rewrite !Forall_cons, Forall_nil. cbn [List.filter].
    repeat match goal with
           | |- context [Str.contains (?var +:+ "=") env_content] =>
               generalize (Str.contains (var +:+ "=") env_content); intro
           end.
    destruct b, b0, b1, b2, b3, b4, b5; vm_compute; repeat split.
Qed.

Lemma env_required_variables_witness :
  resolve (cwd (in_dir careless_deployment)) (Path ".env") =
    Some (File 33188
            (Str.join nl ["SECRET_KEY=django-insecure-change-your-secret";
                          "DB_PASSWORD=postgres"; "DEBUG=True"])) /\
  issues (self (after check_env_file (in_dir careless_deployment))) =
    ["❌ Missing environment variables: DB_NAME, DB_USER, ALLOWED_HOSTS, DJANGO_ENV"].
Proof.
  assert (resolve (cwd (in_dir careless_deployment)) (Path ".env") =
    Some (File 33188
            (Str.join nl ["SECRET_KEY=django-insecure-change-your-secret";
                          "DB_PASSWORD=postgres"; "DEBUG=True"]))) as Henv
    by (vm_compute; reflexivity).
  split; [exact Henv|].
  destruct (env_required_variables (in_dir careless_deployment) _ _ Henv)
    as (_ & H & _).
  exact (proj1 H).
Defined.

(** X6.  When [.env] is a directory, the environment-file check raises
    [IsADirectoryError] at [read_text]: it has then recorded no issue and
    counted nothing, and has appended the world-readable warning exactly
    when the last octal digit of the directory's mode is not 0. *)
Theorem check_env_file_directory (w : World) (st_mode : N)
    (entries : gmap string node) :
  resolve (cwd w) (Path ".env") = Some (Dir st_mode entries) ->
  let w' := after check_env_file w in
  result check_env_file w = Raised IsADirectoryError /\
  cwd w' = cwd w /\
  issues (self w') = issues (self w) /\
  checks_passed (self w') = checks_passed (self w) /\
  checks_failed (self w') = checks_failed (self w) /\
  warnings (self w') =
    warnings (self w) ++
    (if bool_decide (st_mode mod 8 = 0)%N then [] else [env_world_readable]).
Proof.
  intros Henv w'. destruct (check_env_file_spec w) as (Hc & _ & Hs).
  rewrite Henv in Hs. destruct Hs as [Hr Hs]. fold w' in Hc, Hs. rewrite Hs. cbn.
  rewrite app_nil_r. repeat split; try done; lia.
Qed.

Lemma check_env_file_directory_witness :
  resolve (cwd (in_dir env_is_directory)) (Path ".env") = Some (Dir 16877 ∅) /\
  result check_env_file (in_dir env_is_directory) = Raised IsADirectoryError /\
  warnings (self (after check_env_file (in_dir env_is_directory))) =
    [env_world_readable].
Proof.
  assert (resolve (cwd (in_dir env_is_directory)) (Path ".env") =
          Some (Dir 16877 ∅)) as Henv by (vm_compute; reflexivity).
  split; [exact Henv|].
  destruct (check_env_file_directory (in_dir env_is_directory) _ _ Henv)
    as (H1 & _ & _ & _ & _ & H2).
  split; [exact H1|exact H2].
Defined.

(** ** The whole run *)

Lemma bind_ext {A B} (m : Py A) (k k' : A -> Py B) (w : World) :
  (forall a w', k a w' = k' a w') -> bind m k w = bind m k' w.
Proof. intros Hk. unfold bind. by destruct (m w) as [[] ?]. Qed.

Lemma cwd_bind {A B} (m : Py A) (k : A -> Py B) :
  (forall w, cwd (after m w) = cwd w) ->
  (forall a w, cwd (after (k a) w) = cwd w) ->
  forall w, cwd (after (bind m k) w) = cwd w.
Proof.
  intros Hm Hk w. rewrite after_bind. destruct (result m w); [|done].
  by rewrite Hk, Hm.
Qed.

(** The checks that read files, and the reporter, leave the directory alone. *)
Lemma cwd_after_readers (w : World) :
  cwd (after (bind check_gitignore (fun _ =>
              bind check_python_compiled (fun _ =>
              bind check_security_headers (fun _ => print_summary)))) w) = cwd w.
Proof.
  revert w. apply (cwd_bind check_gitignore).
  { intros w. by destruct (check_gitignore_spec w) as (? & _). }
  intros _. apply (cwd_bind check_python_compiled).
  { intros w. by destruct (check_python_compiled_spec w) as (_ & ? & _). }
  intros _. apply (cwd_bind check_security_headers).
  { intros w. by destruct (check_security_headers_spec w) as (? & _). }
  intros _ w. by destruct (print_summary_spec w) as (_ & ? & _).
Qed.

Lemma records_advisory_checks (P : list string -> Prop) :
  P [] -> (forall l1 l2, P l1 -> P l2 -> P (l1 ++ l2)) ->
  records (bind advisory_checks (fun _ => print_summary)) P.
Proof.
  intros Hnil Happ. apply (records_bind P Happ).
  - unfold advisory_checks.
    apply (records_bind P Happ check_directory_structure);
      [by apply records_check_directory_structure|intros _].
    apply (records_bind P Happ check_gitignore);
      [by apply records_check_gitignore|intros _].
    apply (records_bind P Happ check_python_compiled);
      [by apply records_check_python_compiled|intros _].
    by apply records_check_security_headers.
  - intros _. by apply records_print_summary.
Qed.

(** From the TLS check on: the directory the run leaves and the issues it
    records, whether or not a later check raises. *)
Lemma rest_of_main_spec (w : World) :
  let rest := bind later_checks (fun _ => print_summary) in
  cwd (after rest w) = foldl (made (umask w)) (cwd w) required_dirs /\
  issues (self (after rest w)) =
    issues (self w) ++
    (if present (cwd w) ssl_dir then ssl_issues (cwd w) else []) ++
    map file_not_found (absent_in (cwd w) required_files).
Proof.
  intros rest.
  assert (forall w0, rest w0 =
            bind check_ssl_certificates (fun _ =>
            bind check_docker_files (fun _ =>
            bind advisory_checks (fun _ => print_summary))) w0) as Hrest.
  { intros w0. subst rest. unfold later_checks.
    rewrite bind_assoc. apply bind_ext. intros _ w'. by rewrite bind_assoc. }
  unfold after. rewrite Hrest. clear Hrest rest.
  destruct (check_ssl_certificates_spec w) as (Hr1 & Hc1 & Hu1 & Hs1).
  rewrite (bind_returned _ _ _ tt Hr1).
  set (w1 := after check_ssl_certificates w) in *. clearbody w1.
  destruct (check_docker_files_spec w1) as (Hr2 & Hc2 & Hu2 & Hs2).
  rewrite (bind_returned _ _ _ tt Hr2).
  set (w2 := after check_docker_files w1) in *. clearbody w2.
  split.
  - unfold advisory_checks. rewrite bind_assoc.
    destruct (check_directory_structure_spec w2) as (Hr3 & Hc3 & Hu3 & _).
    rewrite (bind_returned _ _ _ tt Hr3).
    set (w3 := after check_directory_structure w2) in *. clearbody w3.
    rewrite bind_assoc.
    assert (forall w0,
              bind check_gitignore
                (fun a => bind ((fun _ => bind check_python_compiled
                                   (fun _ => check_security_headers)) a)
                               (fun _ => print_summary)) w0 =
              bind check_gitignore (fun _ =>
              bind check_python_compiled (fun _ =>
              bind check_security_headers (fun _ => print_summary))) w0) as Hre.
    { intros w0. apply bind_ext. intros _ w'. by rewrite bind_assoc. }
    rewrite Hre. fold (after (bind check_gitignore (fun _ =>
              bind check_python_compiled (fun _ =>
              bind check_security_headers (fun _ => print_summary)))) w3).
    by rewrite cwd_after_readers, Hc3, Hc2, Hc1, Hu2, Hu1.
  - destruct (records_advisory_checks (fun new => new = []) eq_refl
                (fun l1 l2 H1 H2 => eq_trans (f_equal2 app H1 H2) eq_refl) w2)
      as (i & ws & p & Hrec & ->).
    unfold after in Hrec. rewrite Hrec, Hs2, Hc1, Hs1. cbn [issues record].
    rewrite app_nil_r. destruct (present (cwd w) ssl_dir); cbn [issues record];
      by rewrite ?app_nil_r, <- ?app_assoc.
Qed.

(** The environment-file check in the directory [d]: what it returns and
    the issues it records. *)
Lemma check_env_file_issues (w : World) :
  result check_env_file w =
    (if is_dir (cwd w) (Path ".env") then Raised IsADirectoryError
     else Returned tt) /\
  cwd (after check_env_file w) = cwd w /\
  umask (after check_env_file w) = umask w /\
  issues (self (after check_env_file w)) = issues (self w) ++ env_issues (cwd w).
Proof.
  destruct (check_env_file_spec w) as (Hc & Hu & Hs).
  unfold is_dir, env_issues.
  destruct (resolve (cwd w) (Path ".env")) as [[]|]; destruct Hs as [Hr Hs];
    rewrite Hs; by repeat split.
Qed.

Lemma main_spec (w : World) :
  cwd (after main w) =
    (if is_dir (cwd w) (Path ".env") then cwd w
     else foldl (made (umask w)) (cwd w) required_dirs) /\
  issues (self (after main w)) =
    (if is_dir (cwd w) (Path ".env") then [] else blocking_issues (cwd w)) /\
  result main w =
    if is_dir (cwd w) (Path ".env") || is_dir (cwd w) (Path ".gitignore") ||
       is_dir (cwd w) (Path "nginx.prod.conf")
    then Raised IsADirectoryError
    else Returned (if bool_decide (blocking_issues (cwd w) = []) then 0 else 1)%Z.
Proof.
  destruct (check_env_file_issues (start w)) as (Hr & Hc & Hu & Hi).
  change (cwd (start w)) with (cwd w) in *.
  change (umask (start w)) with (umask w) in *.
  change (issues (self (start w))) with (@nil string) in Hi.
  assert (cwd (after main w) =
            (if is_dir (cwd w) (Path ".env") then cwd w
             else foldl (made (umask w)) (cwd w) required_dirs) /\
          issues (self (after main w)) =
            (if is_dir (cwd w) (Path ".env") then []
             else blocking_issues (cwd w))) as [Hcwd Hissues].
  { unfold after at 1 2. rewrite main_unfold.
    destruct (is_dir (cwd w) (Path ".env")) eqn:Hdir.
    - rewrite (bind_raised _ _ _ _ Hr). cbn [snd]. split; [done|].
      rewrite Hi. unfold env_issues. unfold is_dir in Hdir.
      by destruct (resolve (cwd w) (Path ".env")) as [[]|].
    - rewrite (bind_returned _ _ _ tt Hr).
      destruct (rest_of_main_spec (after check_env_file (start w))) as [H1 H2].
      unfold after in H1, H2 |- *. rewrite H1, H2.
      fold (after check_env_file (start w)). by rewrite Hc, Hu, Hi. }
  split; [done|]. split; [done|].
  rewrite main_result.
  change run_all_checks with (bind check_env_file (fun _ => later_checks)).
  rewrite result_bind, Hr, Hissues.
  destruct (is_dir (cwd w) (Path ".env")); [done|].
  rewrite later_checks_result, Hc. cbn [orb].
  by destruct (is_dir (cwd w) (Path ".gitignore") ||
               is_dir (cwd w) (Path "nginx.prod.conf")).
Qed.

(** X7.  The issues at the end of a run are fixed by the directory it
    starts in.  Past the environment-file check they are the issue of that
    check, then the issues of the two certificate files when [nginx_ssl]
    exists, then one issue per missing deployment file: the four later checks
    and the reporter add none, and this holds also when a later check
    raises.  When [.env] is a directory the run stops with no issue at
    all. *)
Theorem main_issues (w : World) :
  issues (self (after main w)) =
    (if is_dir (cwd w) (Path ".env") then []
     else env_issues (cwd w) ++
          (if present (cwd w) ssl_dir then ssl_issues (cwd w) else []) ++
          map file_not_found (absent_in (cwd w) required_files)) /\
  checks_failed (self (after main w)) = length (issues (self (after main w))).
Proof.
  destruct (main_spec w) as (_ & Hi & _). split; [exact Hi|].
  by destruct (records_main w) as (i & ws & p & ->).
Qed.

Lemma env_issues_none (d : gmap string node) :
  is_dir d (Path ".env") = false ->
  env_issues d = [] <->
  exists st_mode env_content,
    resolve d (Path ".env") = Some (File st_mode env_content) /\
    missing_from (fun var => var +:+ "=") required_vars env_content = [].
Proof.
  unfold is_dir, env_issues. intros Hdir.
  destruct (resolve d (Path ".env")) as [[m t|]|]; [|done|].
  - split.
    + intros H. exists m, t. split; [done|].
      by destruct (missing_from _ required_vars t).
    + intros (m' & t' & [= <- <-] & ->). done.
  - split; [done|]. by intros (? & ? & ? & _).
Qed.

(** X8.  Whenever [main] returns, the status it returns is 0 or 1 and is
    fixed by the directory it started in: it is 0 exactly when [.env] is a
    file holding every required [NAME=], [nginx_ssl] is missing or holds both
    certificate files, and the four deployment files exist.  Warnings, and
    with them a missing [nginx_ssl], never block. *)
Theorem main_exit_status (w : World) (code : Z) :
  result main w = Returned code ->
  let d := cwd w in
  code = (if bool_decide (blocking_issues d = []) then 0 else 1)%Z /\
  (code = 0%Z \/ code = 1%Z) /\
  (code = 0%Z <->
   (exists st_mode env_content,
       resolve d (Path ".env") = Some (File st_mode env_content) /\
       missing_from (fun var => var +:+ "=") required_vars env_content = []) /\
   (present d ssl_dir = false \/
    present d cert_file = true /\ present d key_file = true) /\
   absent_in d required_files = []).
Proof.
  intros Hcode d. destruct (main_spec w) as (_ & _ & Hr). fold d in Hr.
  rewrite Hcode in Hr.
  assert (blocking_issues d = [] <->
          env_issues d = [] /\
          (present d ssl_dir = false \/
           present d cert_file = true /\ present d key_file = true) /\
          absent_in d required_files = []) as Hblock.
  { unfold blocking_issues, ssl_issues.
    destruct (env_issues d), (present d ssl_dir), (present d cert_file),
      (present d key_file), (absent_in d required_files); cbn;
      intuition congruence. }
  destruct (is_dir d (Path ".env")) eqn:Henv; [done|].
  pose proof (env_issues_none d Henv) as Hnone. cbn [orb] in Hr.
  destruct (is_dir d (Path ".gitignore") || is_dir d (Path "nginx.prod.conf"));
    [done|].
  injection Hr as ->.
  case_bool_decide as Hb; (split; [done|]); (split; [tauto|]).
  - split; [|done]. intros _. apply Hblock in Hb as (He & Hssl & Hfiles).
    apply Hnone in He. by repeat split.
  - split; [done|]. intros (He & Hssl & Hfiles). destruct Hb.
    apply Hblock. split; [by apply Hnone|]. done.
Qed.

Lemma main_exit_status_witness :
  result main (in_dir (deployment 33188)) = Returned 0%Z /\
  warnings (self (after main (in_dir (deployment 33188)))) <> [] /\
  absent_in (cwd (in_dir (deployment 33188))) required_files = [].
Proof.
  assert (result main (in_dir (deployment 33188)) = Returned 0%Z) as Hcode
    by (vm_compute; reflexivity).
  split; [exact Hcode|]. split; [by vm_compute|].
  destruct (main_exit_status (in_dir (deployment 33188)) 0 Hcode)
    as (_ & _ & Hzero).
  by destruct (proj1 Hzero eq_refl) as (_ & _ & Hfiles).
Defined.

(** X9.  [main] deletes and replaces nothing in the working directory and
    creates nothing but the required directories: every entry there at the
    start is there unchanged at the end, every other name than the three
    is as it was, and the umask is untouched.  Once the run is past the
    environment-file check the three required names exist at the end, even
    when a later check raises. *)
Theorem main_directory (w : World) :
  (forall name n,
      resolve (cwd w) (Path name) = Some n ->
      resolve (cwd (after main w)) (Path name) = Some n) /\
  (forall name,
      name ∉ required_dirs ->
      resolve (cwd (after main w)) (Path name) = resolve (cwd w) (Path name)) /\
  (is_dir (cwd w) (Path ".env") = true -> cwd (after main w) = cwd w) /\
  (is_dir (cwd w) (Path ".env") = false ->
   Forall (fun name => present (cwd (after main w)) (Path name) = true)
          required_dirs).
Proof.
  destruct (main_spec w) as (Hc & _ & _). rewrite Hc.
  pose proof (required_dirs_made (umask w) (cwd w)) as Hmade.
  repeat split.
  - intros name n Hn. destruct (is_dir (cwd w) (Path ".env")); [done|].
    destruct (decide (name ∈ required_dirs)) as [Hin|Hnot].
    + rewrite Forall_forall in Hmade. rewrite (Hmade name Hin). by rewrite Hn.
    + by rewrite resolve_made_others.
  - intros name Hnot. destruct (is_dir (cwd w) (Path ".env")); [done|].
    by apply resolve_made_others.
  - by intros ->.
  - intros ->. eapply Forall_impl; [exact Hmade|]. intros name Hname.
    cbv beta in Hname. unfold present. rewrite Hname.
    by destruct (resolve (cwd w) (Path name)).
Qed.

(** ** Running the script twice *)

Lemma blocking_issues_made (u : N) (d : gmap string node) :
  env_issues (foldl (made u) d required_dirs) = env_issues d /\
  absent_in (foldl (made u) d required_dirs) required_files =
    absent_in d required_files /\
  is_dir (foldl (made u) d required_dirs) (Path ".env") = is_dir d (Path ".env").
Proof.
  assert (forall name, name ∉ required_dirs ->
            resolve (foldl (made u) d required_dirs) (Path name) =
            resolve d (Path name)) as Hsame
    by (intros; by apply resolve_made_others).
  assert (".env" ∉ required_dirs) as Henv by (by apply (bool_decide_unpack _)).
  split; [|split].
  - unfold env_issues. by rewrite Hsame.
  - unfold absent_in, required_files, present. cbn [List.filter].
    by rewrite !Hsame by (by apply (bool_decide_unpack _)).
  - unfold is_dir. by rewrite Hsame.
Qed.

(** X10.  [main] is not idempotent.  The TLS check runs before the
    directories are made, so a run that starts without [nginx_ssl] (and gets
    past the environment-file check) records no TLS issue and leaves
    [nginx_ssl] as a new, empty directory; the next run then finds the
    directory without its two files, records the two TLS issues besides the
    issues of the first run, and exits with status 1. *)
Theorem second_run_blocks (w : World) :
  present (cwd w) ssl_dir = false ->
  is_dir (cwd w) (Path ".env") = false ->
  let w1 := after main w in
  let w2 := after main w1 in
  issues (self w1) =
    env_issues (cwd w) ++ map file_not_found (absent_in (cwd w) required_files) /\
  resolve (cwd w1) ssl_dir = Some (Dir (new_dir_mode (umask w)) ∅) /\
  issues (self w2) =
    env_issues (cwd w) ++ [cert_not_found; key_not_found] ++
    map file_not_found (absent_in (cwd w) required_files) /\
  exit_status (result main w1) = 1%Z.
Proof.
  intros Hssl Henv w1 w2.
  destruct (main_spec w) as (Hc & Hi & _). fold w1 in Hc, Hi.
  rewrite Henv in Hc, Hi. unfold blocking_issues in Hi. rewrite Hssl in Hi.
  destruct (blocking_issues_made (umask w) (cwd w)) as (He & Ha & Hd).
  rewrite <- Hc in He, Ha, Hd.
  assert (resolve (cwd w1) ssl_dir = Some (Dir (new_dir_mode (umask w)) ∅)) as Hdir.
  { pose proof (required_dirs_made (umask w) (cwd w)) as Hmade.
    rewrite <- Hc in Hmade. unfold required_dirs in Hmade.
    rewrite !Forall_cons in Hmade. destruct Hmade as (_ & _ & Hmade & _).
    unfold present, ssl_dir in Hssl. unfold ssl_dir. rewrite Hmade.
    by destruct (resolve (cwd w) (Path "nginx_ssl")). }
  assert (blocking_issues (cwd w1) =
          env_issues (cwd w) ++ [cert_not_found; key_not_found] ++
          map file_not_found (absent_in (cwd w) required_files)) as Hblock.
  { unfold blocking_issues, ssl_issues, present, cert_file, key_file.
    rewrite He, Ha, Hdir. unfold ssl_dir, Path, path_div in *. cbn in Hdir |- *.
    by rewrite Hdir. }
  destruct (main_spec w1) as (_ & Hi2 & Hr2). fold w2 in Hi2.
  rewrite Hd, Henv in Hi2, Hr2. cbn [orb] in Hr2.
  repeat split; try done.
  - by rewrite Hi2, Hblock.
  - rewrite Hr2, Hblock.
    destruct (is_dir (cwd w1) (Path ".gitignore") ||
              is_dir (cwd w1) (Path "nginx.prod.conf")); [done|].
    cbn [exit_status]. rewrite bool_decide_eq_false_2; [done|].
    by destruct (env_issues (cwd w)).
Qed.

Lemma second_run_blocks_witness :
  present (cwd (in_dir ∅)) ssl_dir = false /\
  is_dir (cwd (in_dir ∅)) (Path ".env") = false /\
  issues (self (after main (after main (in_dir ∅)))) =
    env_issues ∅ ++ [cert_not_found; key_not_found] ++
    map file_not_found (absent_in ∅ required_files).
Proof.
  assert (present (cwd (in_dir ∅)) ssl_dir = false) as Hssl by reflexivity.
  assert (is_dir (cwd (in_dir ∅)) (Path ".env") = false) as Henv by reflexivity.
  split; [exact Hssl|]. split; [exact Henv|].
  destruct (second_run_blocks (in_dir ∅) Hssl Henv) as (_ & _ & H & _).
  exact H.
Defined.

(** ** How much a run can record *)

Lemma records_at_most_bind {A B} (m : Py A) (k : A -> Py B)
    (i1 ws1 t1 i2 ws2 t2 : nat) :
  records_at_most m i1 ws1 t1 ->
  (forall a, records_at_most (k a) i2 ws2 t2) ->
  records_at_most (bind m k) (i1 + i2) (ws1 + ws2) (t1 + t2).
Proof.
  intros Hm Hk w. destruct (Hm w) as (i & ws & p & H1 & Hi & Hw & Ht).
  rewrite after_bind. destruct (result m w) as [a|e].
  - destruct (Hk a (after m w)) as (i' & ws' & p' & H2 & Hi' & Hw' & Ht').
    exists (i ++ i'), (ws ++ ws'), (p + p').
    rewrite H2, H1, record_record, !length_app. repeat split; try done; lia.
  - exists i, ws, p. repeat split; try done; lia.
Qed.

Lemma records_at_most_spec {A} (m : Py A) (w : World) (i ws : list string)
    (p bi bw bt : nat) :
  self (after m w) = record (self w) i ws p ->
  length i <= bi -> length ws <= bw -> p + length i <= bt ->
  exists new_issues new_warnings passes,
    self (after m w) = record (self w) new_issues new_warnings passes /\
    length new_issues <= bi /\ length new_warnings <= bw /\
    passes + length new_issues <= bt.
Proof. intros. by exists i, ws, p. Qed.

Lemma report_missing_length (message : list string -> string) (l : list string) :
  length (report_missing message l) + pass_if_none l = 1.
Proof. by destruct l. Qed.

Lemma weak_warnings_length (env_content : string) :
  length (weak_warnings env_content) <= 5.
Proof.
  unfold weak_warnings. rewrite length_map.
  apply (List.filter_length_le _ weak_patterns).
Qed.

Lemma records_at_most_env : records_at_most check_env_file 1 6 1.
Proof.
  intros w. destruct (check_env_file_spec w) as (_ & _ & Hs).
  destruct (resolve (cwd w) (Path ".env")) as [[m t|m sub]|];
    destruct Hs as [_ Hs]; cbv zeta in Hs;
    eapply records_at_most_spec; try exact Hs; cbn [length]; try lia.
  - pose proof (report_missing_length env_missing_vars
                  (missing_from (fun var => var +:+ "=") required_vars t)). lia.
  - rewrite length_app. pose proof (weak_warnings_length t).
    unfold perms_warnings. case_bool_decide; cbn [length]; lia.
  - pose proof (report_missing_length env_missing_vars
                  (missing_from (fun var => var +:+ "=") required_vars t)). lia.
  - unfold perms_warnings. case_bool_decide; cbn [length]; lia.
Qed.

Lemma records_at_most_ssl : records_at_most check_ssl_certificates 2 1 2.
Proof.
  intros w. destruct (check_ssl_certificates_spec w) as (_ & _ & _ & Hs).
  unfold ssl_issues, ssl_passes in Hs.
  destruct (present (cwd w) ssl_dir), (present (cwd w) cert_file),
    (present (cwd w) key_file);
    eapply records_at_most_spec; try exact Hs; cbn; lia.
Qed.

Lemma records_at_most_docker : records_at_most check_docker_files 4 0 4.
Proof.
  intros w. destruct (check_docker_files_spec w) as (_ & _ & _ & Hs).
  pose proof (List.filter_length
                (fun name => present (cwd w) (Path name)) required_files) as Hlen.
  change (length required_files) with 4 in Hlen.
  eapply records_at_most_spec; try exact Hs;
    unfold absent_in, present_in; rewrite ?length_map; cbn [length]; lia.
Qed.

Lemma records_at_most_directories : records_at_most check_directory_structure 0 3 3.
Proof.
  intros w. destruct (check_directory_structure_spec w) as (_ & _ & _ & Hs).
  pose proof (List.filter_length
                (fun name => present (cwd w) (Path name)) required_dirs) as Hlen.
  change (length required_dirs) with 3 in Hlen.
  eapply records_at_most_spec; try exact Hs;
    unfold absent_in, present_in in *; rewrite ?length_map; cbn [length]; lia.
Qed.

Lemma records_at_most_gitignore : records_at_most check_gitignore 0 1 1.
Proof.
  intros w. destruct (check_gitignore_spec w) as (_ & _ & Hs).
  destruct (resolve (cwd w) (Path ".gitignore")) as [[m t|m sub]|];
    destruct Hs as [_ Hs]; cbv zeta in Hs.
  - pose proof (report_missing_length gitignore_missing
                  (missing_from (fun p => p) sensitive_patterns t)).
    eapply records_at_most_spec; try exact Hs; cbn [length]; lia.
  - rewrite <- (record_nothing (self w)) in Hs.
    eapply records_at_most_spec; try exact Hs; cbn [length]; lia.
  - eapply records_at_most_spec; try exact Hs; cbn [length]; lia.
Qed.

Lemma records_at_most_build : records_at_most check_python_compiled 0 1 1.
Proof.
  intros w. destruct (check_python_compiled_spec w) as (_ & _ & _ & Hs).
  destruct (present (cwd w) (Path "build_secure.py"));
    eapply records_at_most_spec; try exact Hs; cbn [length]; lia.
Qed.

Lemma records_at_most_headers : records_at_most check_security_headers 0 1 1.
Proof.
  intros w. destruct (check_security_headers_spec w) as (_ & _ & Hs).
  destruct (resolve (cwd w) (Path "nginx.prod.conf")) as [[m t|m sub]|];
    destruct Hs as [_ Hs]; cbv zeta in Hs.
  - pose proof (report_missing_length headers_missing
                  (missing_from (fun h => h) security_headers t)).
    eapply records_at_most_spec; try exact Hs; cbn [length]; lia.
  - rewrite <- (record_nothing (self w)) in Hs.
    eapply records_at_most_spec; try exact Hs; cbn [length]; lia.
  - rewrite <- (record_nothing (self w)) in Hs.
    eapply records_at_most_spec; try exact Hs; cbn [length]; lia.
Qed.

Lemma records_at_most_summary : records_at_most print_summary 0 0 0.
Proof.
  intros w. destruct (print_summary_spec w) as (_ & _ & Hs).
  rewrite <- (record_nothing (self w)) in Hs.
  eapply records_at_most_spec; try exact Hs; cbn [length]; lia.
Qed.

Lemma records_at_most_run :
  records_at_most (bind run_all_checks (fun _ => print_summary))
    ((1 + (2 + (4 + (0 + (0 + (0 + 0)))))) + 0)
    ((6 + (1 + (0 + (3 + (1 + (1 + 1)))))) + 0)
    ((1 + (2 + (4 + (3 + (1 + (1 + 1)))))) + 0).
Proof.
  apply records_at_most_bind; [|intros _; apply records_at_most_summary].
  unfold run_all_checks.
  apply (records_at_most_bind check_env_file); [apply records_at_most_env|intros _].
  apply (records_at_most_bind check_ssl_certificates);
    [apply records_at_most_ssl|intros _].
  apply (records_at_most_bind check_docker_files);
    [apply records_at_most_docker|intros _].
  apply (records_at_most_bind check_directory_structure);
    [apply records_at_most_directories|intros _].
  apply (records_at_most_bind check_gitignore);
    [apply records_at_most_gitignore|intros _].
  apply (records_at_most_bind check_python_compiled);
    [apply records_at_most_build|intros _].
  apply records_at_most_headers.
Qed.

(** X11.  However a run ends, its checker holds at most 7 issues and 13
    warnings and has counted at most 13 checks, passed and failed together.
    Each bound is reached: 7 issues in a directory that holds only an empty
    [nginx_ssl], 13 warnings in [careless_deployment], 13 passes in a
    complete directory. *)
Theorem main_bounds :
  (forall w,
      length (issues (self (after main w))) <= 7 /\
      length (warnings (self (after main w))) <= 13 /\
      checks_passed (self (after main w)) + checks_failed (self (after main w))
        <= 13) /\
  length (issues (self (after main (in_dir empty_ssl_dir)))) = 7 /\
  length (warnings (self (after main (in_dir careless_deployment)))) = 13 /\
  checks_passed (self (after main (in_dir (deployment 33152)))) = 13.
Proof.
  split; [|split; [|split]].
  - intros w. unfold after. rewrite main_starts.
    destruct (records_at_most_run (start w)) as (i & ws & p & H & Hi & Hw & Ht).
    unfold after in H. rewrite H. cbn. lia.
  - vm_compute; reflexivity.
  - vm_compute; reflexivity.
  - vm_compute; reflexivity.
Qed.

(** ** What the reporter prints *)

Lemma print_summary_stdout (w : World) :
  stdout (after print_summary w) = stdout w ++ summary_lines (self w).
Proof.
  unfold print_summary, after.
  do 3 rewrite (bind_returned (print _) _ _ tt eq_refl).
  set (w1 := after _ _).
  assert (stdout w1 =
            stdout w ++ [nl +:+ Str.repeat "=" 60; "📊 SECURITY CHECK SUMMARY";
                         Str.repeat "=" 60] /\ self w1 = self w) as [Ho Hs].
  { split; [|done]. subst w1. unfold after, print. cbn [snd stdout].
    by rewrite <- !app_assoc. }
  clearbody w1.
  rewrite (bind_returned get_self _ w1 (self w1) eq_refl).
  change (after get_self w1) with w1.
  do 3 rewrite (bind_returned (print _) _ _ tt eq_refl).
  set (w2 := after _ _).
  assert (stdout w2 =
            stdout w1 ++
            [nl +:+ "✅ Checks passed: " +:+ Str.of_nat (checks_passed (self w1));
             "❌ Checks failed: " +:+ Str.of_nat (checks_failed (self w1));
             "⚠️  Warnings: " +:+ Str.of_nat (length (warnings (self w1)))] /\
          self w2 = self w1) as [Ho2 Hs2].
  { split; [|done]. subst w2. unfold after, print. cbn [snd stdout].
    by rewrite <- !app_assoc. }
  clearbody w2.
  unfold summary_lines, summary_counts, summary_listing, summary_closing.
  rewrite <- Hs.
  destruct (issues (self w1)) as [|i il], (warnings (self w1)) as [|x xl];
    simpl; unfold when, bind; simpl; rewrite ?for_each_print; simpl;
    rewrite Ho2, Ho, <- ?app_assoc; simpl; rewrite <- ?app_assoc; done.
Qed.

Ltac other_line :=
  repeat match goal with
         | H : _ \/ _ |- _ => destruct H as [H|H]
         | H : In _ (_ ++ _) |- _ => apply in_app_iff in H
         | H : In _ (map shown _) |- _ =>
             apply in_map_iff in H as (? & H & _)
         | H : In _ (_ :: _) |- _ => cbn [In] in H
         | H : In _ [] |- _ => destruct H
         | H : False |- _ => destruct H
         | H : @eq string _ _ |- _ => vm_compute in H; discriminate H
         end.

(** The closing messages are no line of the counts nor of the listing. *)
Lemma closing_message_elsewhere (c : SecurityChecker) (message : string) :
  message = ready_message \/ message = review_message \/
  message = critical_message ->
  ~ In message (summary_counts c ++ summary_listing c).
Proof.
  unfold summary_counts, summary_listing.
  intros Hm Hin.
  destruct (issues c), (warnings c); destruct Hm as [-> | [-> | ->]]; other_line.
Qed.

(** X12.  [print_summary] only appends to the output, and what it appends
    shows every recorded issue and every recorded warning, each on a line of
    its own after two spaces.  It prints exactly one closing message: the
    ready message when there is neither issue nor warning, the review message
    when there are only warnings, the critical message when there is an
    issue; and in that last case the critical message is the last line, the
    closing rule being printed only when it returns 0. *)
Theorem print_summary_output (w : World) :
  let c := self w in
  exists lines,
    stdout (after print_summary w) = stdout w ++ lines /\
    (forall message,
        In message (issues c) \/ In message (warnings c) ->
        In (shown message) lines) /\
    (In ready_message lines <-> issues c = [] /\ warnings c = []) /\
    (In review_message lines <-> issues c = [] /\ warnings c <> []) /\
    (In critical_message lines <-> issues c <> []) /\
    last lines =
      Some (if bool_decide (issues c = []) then nl +:+ Str.repeat "=" 60
            else critical_message).
Proof.
  intros c. exists (summary_lines c). split; [apply print_summary_stdout|].
  assert (forall message,
            message = ready_message \/ message = review_message \/
            message = critical_message ->
            In message (summary_lines c) <-> In message (summary_closing c))
    as Hclosing.
  { intros message Hm. unfold summary_lines. rewrite app_assoc, in_app_iff.
    pose proof (closing_message_elsewhere c message Hm). tauto. }
  rewrite !Hclosing by tauto. clear Hclosing. split.
  { intros message Hin. unfold summary_lines, summary_listing.
    rewrite !in_app_iff. right. left.
    destruct Hin as [Hin|Hin]; [left|right].
    - destruct (issues c); [done|]. right. by apply in_map.
    - destruct (warnings c); [done|]. right. by apply in_map. }
  unfold summary_lines, summary_closing.
  destruct (issues c) as [|i il], (warnings c) as [|x xl];
    rewrite ?app_assoc, ?last_app; cbn [last]; split_and!; try done;
    (split; [intros H; other_line; try done|
             intros H; try (by destruct H); try (by left); try done]).
Qed.

(** ** Files where directories are expected, and the skipped headers check *)

(** X13.  The required-directories check tests existence only: a regular
    file that bears the name of a required directory counts as a pass, gets
    no warning, and is left as it is, so the name is still no directory after
    the check. *)
Theorem required_directory_may_be_file (w : World) (name : string) (st_mode : N)
    (text : string) :
  In name required_dirs ->
  resolve (cwd w) (Path name) = Some (File st_mode text) ->
  let w' := after check_directory_structure w in
  result check_directory_structure w = Returned tt /\
  resolve (cwd w') (Path name) = Some (File st_mode text) /\
  is_dir (cwd w') (Path name) = false /\
  (exists new_warnings,
      warnings (self w') = warnings (self w) ++ new_warnings /\
      ~ In (dir_not_found name) new_warnings) /\
  checks_passed (self w) + 1 <= checks_passed (self w').
Proof.
  intros Hname Hfile w'.
  destruct (check_directory_structure_spec w) as (Hr & Hc & _ & Hs).
  fold w' in Hc, Hs.
  pose proof (required_dirs_made (umask w) (cwd w)) as Hmade. rewrite <- Hc in Hmade.
  rewrite Forall_forall in Hmade.
  assert (resolve (cwd w') (Path name) = Some (File st_mode text)) as Hkept.
  { rewrite (Hmade name) by (by apply list_elem_of_In). by rewrite Hfile. }
  assert (present (cwd w) (Path name) = true) as Hpresent
    by (unfold present; by rewrite Hfile).
  split; [done|]. split; [done|]. split; [unfold is_dir; by rewrite Hkept|].
  rewrite Hs. cbn [warnings checks_passed record]. split.
  - eexists. split; [reflexivity|]. rewrite in_map_iff.
    intros (other & Heq & Hin). unfold absent_in in Hin.
    apply filter_In in Hin as [Hin Habsent].
    assert (other = name) as ->.
    { unfold required_dirs in Hin, Hname. cbn [In] in Hin, Hname.
      destruct Hin as [<-|[<-|[<-|[]]]]; destruct Hname as [<-|[<-|[<-|[]]]];
        try done; vm_compute in Heq; discriminate Heq. }
    by rewrite Hpresent in Habsent.
  - assert (In name (present_in (cwd w) required_dirs)) as Hin
      by (unfold present_in; by apply filter_In).
    destruct (present_in (cwd w) required_dirs); [done|]. cbn [length]. lia.
Qed.

Lemma required_directory_may_be_file_witness :
  In "logs" required_dirs /\
  resolve (cwd (in_dir logs_is_file)) (Path "logs") = Some (File 33188 "") /\
  is_dir (cwd (after check_directory_structure (in_dir logs_is_file)))
         (Path "logs") = false.
Proof.
  assert (In "logs" required_dirs) as Hname by (by left).
  assert (resolve (cwd (in_dir logs_is_file)) (Path "logs") =
          Some (File 33188 "")) as Hfile by (vm_compute; reflexivity).
  split; [exact Hname|]. split; [exact Hfile|].
  destruct (required_directory_may_be_file (in_dir logs_is_file) "logs" 33188 ""
              Hname Hfile) as (_ & _ & H & _).
  exact H.
Defined.

(** X14.  The TLS check tests existence only: when [nginx_ssl] is a regular
    file, neither certificate file can exist below it, and the check records
    the two TLS issues with two failures, no pass and no warning. *)
Theorem ssl_directory_may_be_file (w : World) (st_mode : N) (text : string) :
  resolve (cwd w) ssl_dir = Some (File st_mode text) ->
  let w' := after check_ssl_certificates w in
  result check_ssl_certificates w = Returned tt /\
  issues (self w') = issues (self w) ++ [cert_not_found; key_not_found] /\
  checks_failed (self w') = checks_failed (self w) + 2 /\
  checks_passed (self w') = checks_passed (self w) /\
  warnings (self w') = warnings (self w).
Proof.
  intros Hfile w'.
  destruct (check_ssl_certificates_spec w) as (Hr & _ & _ & Hs). fold w' in Hs.
  unfold ssl_issues, ssl_passes, present, cert_file, key_file in Hs.
  rewrite Hfile in Hs. unfold ssl_dir, Path, path_div in *. cbn in Hfile, Hs.
  rewrite Hfile in Hs. rewrite Hs. cbn. rewrite app_nil_r.
  repeat split; try done; lia.
Qed.

Lemma ssl_directory_may_be_file_witness :
  resolve (cwd (in_dir ssl_is_file)) ssl_dir = Some (File 33188 "") /\
  issues (self (after check_ssl_certificates (in_dir ssl_is_file))) =
    [cert_not_found; key_not_found].
Proof.
  assert (resolve (cwd (in_dir ssl_is_file)) ssl_dir = Some (File 33188 ""))
    as Hfile by (vm_compute; reflexivity).
  split; [exact Hfile|].
  destruct (ssl_directory_may_be_file (in_dir ssl_is_file) 33188 "" Hfile)
    as (_ & H & _).
  exact H.
Defined.

(** X15.  The security-headers check says nothing when [nginx.prod.conf] is
    missing, but a run that gets past the environment-file check never
    passes over the missing file: the required-files check has recorded the
    issue that names it, which is among the issues at the end of the run,
    and the exit status is 1. *)
Theorem missing_nginx_conf_reported (w : World) :
  is_dir (cwd w) (Path ".env") = false ->
  present (cwd w) (Path "nginx.prod.conf") = false ->
  self (after check_security_headers w) = self w /\
  In (file_not_found "nginx.prod.conf") (issues (self (after main w))) /\
  exit_status (result main w) = 1%Z.
Proof.
  intros Henv Hconf.
  assert (In (file_not_found "nginx.prod.conf") (blocking_issues (cwd w))) as Hin.
  { unfold blocking_issues. rewrite !in_app_iff. right. right.
    apply in_map. unfold absent_in. apply filter_In. split.
    - unfold required_files. cbn [In]. tauto.
    - by rewrite Hconf. }
  destruct (main_spec w) as (_ & Hi & Hr). rewrite Henv in Hi, Hr.
  split; [|split].
  - destruct (check_security_headers_spec w) as (_ & _ & Hs).
    unfold present in Hconf.
    destruct (resolve (cwd w) (Path "nginx.prod.conf")); [done|]. by destruct Hs.
  - by rewrite Hi.
  - rewrite Hr. cbn [orb].
    destruct (is_dir (cwd w) (Path ".gitignore") ||
              is_dir (cwd w) (Path "nginx.prod.conf")); [done|].
    cbn [exit_status]. rewrite bool_decide_eq_false_2; [done|].
    intros Hnil. by rewrite Hnil in Hin.
Qed.

Lemma missing_nginx_conf_reported_witness :
  is_dir (cwd (in_dir ∅)) (Path ".env") = false /\
  present (cwd (in_dir ∅)) (Path "nginx.prod.conf") = false /\
  In (file_not_found "nginx.prod.conf") (issues (self (after main (in_dir ∅)))).
Proof.
  assert (is_dir (cwd (in_dir ∅)) (Path ".env") = false) as Henv by reflexivity.
  assert (present (cwd (in_dir ∅)) (Path "nginx.prod.conf") = false) as Hconf
    by reflexivity.
  split; [exact Henv|]. split; [exact Hconf|].
  destruct (missing_nginx_conf_reported (in_dir ∅) Henv Hconf) as (_ & H & _).
  exact H.
Defined.
